(** * trace.c: the ring-buffer based tracing information store

    Shallow embedding of [src/trace.c]: the per-CPU merge
    ([__find_next_entry]), the trace_seq output buffer, the pipe reader
    ([trace_read_pipe] with [trace_wait_pipe]), the event class registry
    ([find_print_event]) and module startup ([print_event_init]). *)

From Stdlib Require Import Ascii String.
From Stdlib Require Import List Arith NArith ZArith Lia Bool.
From Stdlib Require Import Sorting.Sorted Sorting.Permutation.
Import ListNotations.

(** ** Error numbers and sizes *)

Definition EINTR : Z := 4.
Definition EAGAIN : Z := 11.
Definition ENOMEM : Z := 12.
Definition EBUSY : Z := 16.
Definition ENODEV : Z := 19.
Definition EINVAL : Z := 22.

Definition PAGE_SIZE : nat := 4096.

(** ** Records in the ring buffer

    [struct print_event_entry]: the class id (an unsigned field, so a
    [nat]), together with what [ring_buffer_peek] reports for the event:
    its u64 timestamp and the count of events lost on that CPU before it. *)

Record entry := mk_entry {
  e_id : nat;
  e_ts : N;
  e_lost : N;
  e_payload : list ascii
}.

(** One per-CPU buffer, oldest event first; the store is indexed by CPU. *)
Abbreviation cpu_buffer := (list entry).
Abbreviation store := (list cpu_buffer).

Definition ring_buffer_empty_cpu (st : store) (cpu : nat) : bool :=
  match nth_error st cpu with
  | Some (_ :: _) => false
  | _ => true
  end.

Definition ring_buffer_peek (st : store) (cpu : nat) : option entry :=
  match nth_error st cpu with
  | Some (e :: _) => Some e
  | _ => None
  end.

(** [ring_buffer_consume]: drop the oldest event of [cpu]. *)
Fixpoint ring_buffer_consume (st : store) (cpu : nat) : store :=
  match st, cpu with
  | [], _ => []
  | b :: bs, O => tl b :: bs
  | b :: bs, S c => b :: ring_buffer_consume bs c
  end.

Definition buffer_empty (b : cpu_buffer) : bool :=
  match b with [] => true | _ => false end.

(** [is_trace_empty]: every possible CPU is empty. *)
Definition is_trace_empty (st : store) : bool := forallb buffer_empty st.

(** ** The merge: [__find_next_entry]

    The out-parameters [ent_cpu], [ent_ts] and [missing_events] are returned
    together with the selected entry. *)

Record find_result := mk_find {
  fr_ent : option entry;
  fr_cpu : Z;
  fr_ts : N;
  fr_lost : N
}.

Definition find_init : find_result := mk_find None (-1) 0 0.

(** The [for_each_possible_cpu] loop, [cpu] being the index of the head of
    [bufs]: empty CPUs are skipped, otherwise the peeked entry replaces the
    candidate when there is none yet or when its timestamp is strictly
    smaller. *)
Fixpoint scan_cpus (cpu : nat) (bufs : store) (acc : find_result)
  : find_result :=
  match bufs with
  | [] => acc
  | b :: bs =>
      if buffer_empty b then scan_cpus (S cpu) bs acc
      else
        match hd_error b with
        | Some e =>
            if match fr_ent acc with
               | None => true
               | Some _ => (e_ts e <? fr_ts acc)%N
               end
            then scan_cpus (S cpu) bs (mk_find (Some e) (Z.of_nat cpu) (e_ts e) (e_lost e))
            else scan_cpus (S cpu) bs acc
        | None => scan_cpus (S cpu) bs acc
        end
  end.

Definition find_next_entry (st : store) : find_result :=
  scan_cpus 0 st find_init.

(** Repeatedly take the merged minimum and consume it from its CPU, as the
    format loop of [trace_read_pipe] does when every line fits: the entries
    in the order they leave the store, and the store afterwards. *)
Fixpoint drain (k : nat) (st : store) : list entry * store :=
  match k with
  | O => ([], st)
  | S k' =>
      let r := find_next_entry st in
      match fr_ent r with
      | None => ([], st)
      | Some e =>
          let '(l, st') := drain k' (ring_buffer_consume st (Z.to_nat (fr_cpu r))) in
          (e :: l, st')
      end
  end.

(** ** The output buffer: [struct trace_seq]

    A [seq_buf] of [PAGE_SIZE] bytes. The write position [seq.len] is the
    length of [s_buf]; [s_readpos] is [seq.readpos]; [s_full] is the
    [full] flag of [trace_seq]. *)

Record trace_seq := mk_seq {
  s_buf : list ascii;
  s_readpos : nat;
  s_full : bool
}.

Definition trace_seq_init : trace_seq := mk_seq [] 0 false.

Definition seq_len (s : trace_seq) : nat := length (s_buf s).

(** [trace_seq_used]: [min(seq.len, seq.size)]. *)
Definition trace_seq_used (s : trace_seq) : nat := Nat.min (seq_len s) PAGE_SIZE.

(** [trace_seq_has_overflowed]: [full] or [seq.len > seq.size]. *)
Definition trace_seq_has_overflowed (s : trace_seq) : bool :=
  s_full s || (PAGE_SIZE <? seq_len s).

(** [trace_seq_printf] of an already formatted [line]: [seq_buf_vprintf]
    keeps the text only when [len + written < size]; otherwise the length
    is restored and [full] is set. Nothing is written once [full]. *)
Definition trace_seq_printf (s : trace_seq) (line : list ascii) : trace_seq :=
  if s_full s then s
  else if seq_len s + length line <? PAGE_SIZE
       then mk_seq (s_buf s ++ line) (s_readpos s) false
       else mk_seq (s_buf s) (s_readpos s) true.

Inductive print_line_t :=
| TRACE_TYPE_PARTIAL_LINE
| TRACE_TYPE_HANDLED
| TRACE_TYPE_UNHANDLED
| TRACE_TYPE_NO_CONSUME.

Definition print_line_eqb (a b : print_line_t) : bool :=
  match a, b with
  | TRACE_TYPE_PARTIAL_LINE, TRACE_TYPE_PARTIAL_LINE
  | TRACE_TYPE_HANDLED, TRACE_TYPE_HANDLED
  | TRACE_TYPE_UNHANDLED, TRACE_TYPE_UNHANDLED
  | TRACE_TYPE_NO_CONSUME, TRACE_TYPE_NO_CONSUME => true
  | _, _ => false
  end.

Definition trace_handle_return (s : trace_seq) : print_line_t :=
  if trace_seq_has_overflowed s then TRACE_TYPE_PARTIAL_LINE
  else TRACE_TYPE_HANDLED.

(** [trace_seq_to_user] ([seq_buf_to_user], the copy to user space assumed
    to succeed): [0] for an empty request, [-EBUSY] when nothing is left
    unread, otherwise the number of bytes copied from the read position,
    which advances. The copied bytes are returned. *)
Definition trace_seq_to_user (s : trace_seq) (cnt : nat)
  : Z * list ascii * trace_seq :=
  if cnt =? 0 then (0%Z, [], s)
  else if trace_seq_used s <=? s_readpos s then ((- EBUSY)%Z, [], s)
  else
    let n := Nat.min cnt (trace_seq_used s - s_readpos s) in
    (Z.of_nat n, firstn n (skipn (s_readpos s) (s_buf s)),
     mk_seq (s_buf s) (s_readpos s + n) (s_full s)).

(** ** Event classes

    Modelled from the spec: the per-class format callbacks are generated in
    kprobe.h, which is not in src/. Each one prints its line for the entry
    with [trace_seq_printf] and returns [trace_handle_return], so that it
    signals a partial line when the line does not fit. [pc_id] and
    [pc_bound] are the [id] and [buffer] fields set by [print_event_init]. *)

Record print_event_class := mk_class {
  pc_id : nat;
  pc_bound : bool;
  pc_line : entry -> list ascii
}.

Definition class_format (c : print_event_class) (s : trace_seq) (e : entry)
  : trace_seq * print_line_t :=
  let s' := trace_seq_printf s (pc_line c e) in
  (s', trace_handle_return s').

(** The classes between [__start_print_event_class] and
    [__stop_print_event_class], in link order. *)
Definition find_print_event (classes : list print_event_class) (id : nat)
  : option print_event_class :=
  if id <? length classes then nth_error classes id else None.

(** Decimal rendering of [%d] for a non-negative value. *)
Fixpoint dec_digits (fuel n : nat) (acc : list ascii) : list ascii :=
  match fuel with
  | O => acc
  | S f =>
      let acc' := ascii_of_nat (48 + n mod 10) :: acc in
      if n <? 10 then acc' else dec_digits f (n / 10) acc'
  end.

Definition decimal (n : nat) : list ascii := dec_digits (S n) n [].

(** The fallback line ["Unknown id %d\n"]. *)
Definition unknown_line (e : entry) : list ascii :=
  String.list_ascii_of_string "Unknown id " ++ decimal (e_id e) ++ [ascii_of_nat 10].

Definition print_trace_fmt_line (classes : list print_event_class)
  (s : trace_seq) (e : entry) : trace_seq * print_line_t :=
  let class := find_print_event classes (e_id e) in
  if trace_seq_has_overflowed s then (s, TRACE_TYPE_PARTIAL_LINE)
  else
    match class with
    | Some c => class_format c s e
    | None =>
        let s' := trace_seq_printf s (unknown_line e) in
        (s', trace_handle_return s')
    end.

(** The line an entry is formatted to. *)
Definition line_of (classes : list print_event_class) (e : entry) : list ascii :=
  match find_print_event classes (e_id e) with
  | Some c => pc_line c e
  | None => unknown_line e
  end.

(** ** The iterator of an open trace_pipe: [struct print_event_iterator]
    (the mutex and the buffer handle are left out: the store is passed
    explicitly). *)

Record iter := mk_iter {
  it_seq : trace_seq;
  it_ent : option entry;
  it_lost : N;
  it_cpu : Z;
  it_ts : N
}.

Definition set_seq (it : iter) (s : trace_seq) : iter :=
  mk_iter s (it_ent it) (it_lost it) (it_cpu it) (it_ts it).

(** The [memset] of everything from [seq] on, then [trace_seq_init]. *)
Definition iter_reset (it : iter) : iter := mk_iter trace_seq_init None 0 0 0.

(** [trace_next_entry_inc]. *)
Definition trace_next_entry_inc (it : iter) (st : store) : iter :=
  let r := find_next_entry st in
  mk_iter (it_seq it) (fr_ent r) (fr_lost r) (fr_cpu r) (fr_ts r).

(** One pass of the [while (trace_next_entry_inc(iter) != NULL)] loop; the
    boolean tells whether the loop goes on. [WARN_ONCE] only logs. *)
Definition fmt_step (classes : list print_event_class) (it : iter) (st : store)
  (cnt : nat) : iter * store * bool :=
  let it := trace_next_entry_inc it st in
  match it_ent it with
  | None => (it, st, false)
  | Some e =>
      let save_len := seq_len (it_seq it) in
      let '(s', ret) := print_trace_fmt_line classes (it_seq it) e in
      if print_line_eqb ret TRACE_TYPE_PARTIAL_LINE then
        (* don't print partial lines: seq.len = save_len *)
        (set_seq it (mk_seq (firstn save_len (s_buf s')) (s_readpos s') (s_full s')),
         st, false)
      else
        let '(it', st') :=
          if negb (print_line_eqb ret TRACE_TYPE_NO_CONSUME)
          then (mk_iter s' (it_ent it) (e_lost e) (it_cpu it) (e_ts e),
                ring_buffer_consume st (Z.to_nat (it_cpu it)))
          else (set_seq it s', st) in
        (it', st', negb (cnt <=? trace_seq_used s'))
  end.

Fixpoint fmt_loop (fuel : nat) (classes : list print_event_class) (it : iter)
  (st : store) (cnt : nat) : iter * store :=
  match fuel with
  | O => (it, st)
  | S f =>
      let '(it', st', go) := fmt_step classes it st cnt in
      if go then fmt_loop f classes it' st' cnt else (it', st')
  end.

Definition store_size (st : store) : nat := length (concat st).

(** ** Reading trace_pipe

    The environment of a read call: whether the file was opened with
    [O_NONBLOCK], whether a fatal signal is pending on [current], and the
    [ring_buffer_wait] primitive resolved through kallsyms, given as its
    result on the [n]-th call and the store once it returns (producers may
    have written meanwhile). *)

Record read_env := mk_env {
  f_nonblock : bool;
  fatal_signal_pending : bool;
  ring_buffer_waiting : nat -> store -> Z * store
}.

(** [trace_wait_pipe]: the result, the store, and the number of calls of
    the wait primitive so far; [None] when [fuel] runs out (the caller
    stays blocked). *)
Fixpoint trace_wait_pipe (fuel : nat) (env : read_env) (nw : nat) (st : store)
  : option (Z * store * nat) :=
  if is_trace_empty st then
    if f_nonblock env then Some ((- EAGAIN)%Z, st, nw)
    else
      match fuel with
      | O => None
      | S f =>
          let '(ret, st') := ring_buffer_waiting env nw st in
          if negb (ret =? 0)%Z then Some (ret, st', S nw)
          else trace_wait_pipe f env (S nw) st'
      end
  else Some (1%Z, st, nw).

(** The outcome of a read call: the value returned, the bytes copied to
    the user, the iterator, the store, and the number of waits. *)
Record read_result := mk_res {
  r_ret : Z;
  r_out : list ascii;
  r_iter : iter;
  r_store : store;
  r_waits : nat
}.

(** From the [waitagain] label to the end of [trace_read_pipe]; [sret] is
    the value held when the label is reached. *)
Fixpoint read_waitagain (fuel : nat) (env : read_env)
  (classes : list print_event_class) (it : iter) (st : store) (cnt : nat)
  (nw : nat) (sret : Z) : option read_result :=
  match fuel with
  | O => None
  | S f =>
      if fatal_signal_pending env then Some (mk_res sret [] it st nw)
      else
        match trace_wait_pipe f env nw st with
        | None => None
        | Some (w, st, nw) =>
            if (w <=? 0)%Z then Some (mk_res w [] it st nw)
            (* stop when tracing is finished *)
            else if is_trace_empty st then Some (mk_res 0 [] it st nw)
            else
              let cnt := if PAGE_SIZE <=? cnt then PAGE_SIZE - 1 else cnt in
              let it := iter_reset it in
              let '(it, st) := fmt_loop (S (store_size st)) classes it st cnt in
              let '(sret, out, s) := trace_seq_to_user (it_seq it) cnt in
              let s := if trace_seq_used s <=? s_readpos s then trace_seq_init else s in
              let it := set_seq it s in
              if (sret =? - EBUSY)%Z then read_waitagain f env classes it st cnt nw sret
              else Some (mk_res sret out it st nw)
        end
  end.

Definition trace_read_pipe (fuel : nat) (env : read_env)
  (classes : list print_event_class) (it : iter) (st : store) (cnt : nat)
  : option read_result :=
  let '(sret, out, s) := trace_seq_to_user (it_seq it) cnt in
  if negb (sret =? - EBUSY)%Z then Some (mk_res sret out (set_seq it s) st 0)
  else read_waitagain fuel env classes (set_seq it trace_seq_init) st cnt 0 sret.

(** ** Module startup and teardown

    The effects of [print_event_init] and [print_event_exit] on the module
    state, logged in the order they happen. [ring_buffer_alloc] creates the
    buffer structure and its per-CPU pages; [kfree] releases the structure
    only, [ring_buffer_free] both. *)

Inductive action :=
| ActAllocStore        (* ring_buffer_alloc *)
| ActMkdir             (* proc_mkdir("tracing") *)
| ActCreatePipe        (* proc_create_data("trace_pipe") *)
| ActRegisterClasses   (* the loop setting class->id and class->buffer *)
| ActRemoveProc        (* remove_proc_subtree("tracing") *)
| ActKfreeStore        (* kfree(ring_buffer) *)
| ActFreeStore.        (* ring_buffer_free(ring_buffer) *)

Record module_state := mk_mod {
  ms_classes : list print_event_class;
  ms_rb_struct : bool;
  ms_rb_pages : bool;
  ms_proc_dir : bool;
  ms_proc_pipe : bool;
  ms_log : list action
}.

(** [class->id = id++; class->buffer = ring_buffer;] over the classes. *)
Fixpoint assign_ids (id : nat) (cls : list print_event_class)
  : list print_event_class :=
  match cls with
  | [] => []
  | c :: cs => mk_class id true (pc_line c) :: assign_ids (S id) cs
  end.

Definition apply_act (a : action) (s : module_state) : module_state :=
  let '(mk_mod cls rs rp pd pp lg) := s in
  let lg := lg ++ [a] in
  match a with
  | ActAllocStore => mk_mod cls true true pd pp lg
  | ActMkdir => mk_mod cls rs rp true pp lg
  | ActCreatePipe => mk_mod cls rs rp pd true lg
  | ActRegisterClasses => mk_mod (assign_ids 0 cls) rs rp pd pp lg
  | ActRemoveProc => mk_mod cls rs rp false false lg
  | ActKfreeStore => mk_mod cls false rp pd pp lg
  | ActFreeStore => mk_mod cls false false pd pp lg
  end.

(** Outcomes of the external calls made at startup. *)
Record init_env := mk_ienv {
  lookup_ok : bool;   (* kallsyms_lookup_name("ring_buffer_wait") *)
  alloc_ok : bool;    (* ring_buffer_alloc *)
  mkdir_ok : bool;    (* proc_mkdir *)
  create_ok : bool    (* proc_create_data *)
}.

(** [PRINT_EVENT_ID_MAX] for an [id] field of [id_bits] bits. *)
Definition PRINT_EVENT_ID_MAX (id_bits : nat) : nat := 2 ^ id_bits - 1.

Definition num_print_event_class (s : module_state) : nat :=
  length (ms_classes s).

Definition print_event_init (id_bits : nat) (env : init_env)
  (s : module_state) : Z * module_state :=
  let num_class := num_print_event_class s in
  if num_class =? 0 then (0%Z, s)
  else if PRINT_EVENT_ID_MAX id_bits <=? num_class then ((- EINVAL)%Z, s)
  else if negb (lookup_ok env) then ((- ENODEV)%Z, s)
  else if negb (alloc_ok env) then ((- ENOMEM)%Z, s)
  else
    let s := apply_act ActAllocStore s in
    if negb (mkdir_ok env) then
      (* goto free *)
      ((- ENOMEM)%Z, apply_act ActKfreeStore s)
    else
      let s := apply_act ActMkdir s in
      if negb (create_ok env) then
        (* goto remove_proc *)
        ((- ENOMEM)%Z, apply_act ActKfreeStore (apply_act ActRemoveProc s))
      else (0%Z, apply_act ActRegisterClasses (apply_act ActCreatePipe s)).

Definition print_event_exit (s : module_state) : module_state :=
  if num_print_event_class s =? 0 then s
  else apply_act ActFreeStore (apply_act ActRemoveProc s).

(** The module state before loading: nothing allocated or published. *)
Definition module_unloaded (cls : list print_event_class) : module_state :=
  mk_mod cls false false false false [].

(** ** Specification predicates *)

(** What the scan has established about the CPUs [pre] already visited:
    no candidate when all of them are empty, otherwise the head of the
    first CPU whose head has the smallest timestamp. *)
Definition scan_inv (pre : store) (r : find_result) : Prop :=
  match fr_ent r with
  | None => is_trace_empty pre = true /\ fr_cpu r = (-1)%Z /\ fr_ts r = 0%N /\ fr_lost r = 0%N
  | Some e =>
      exists c rest,
        nth_error pre c = Some (e :: rest) /\ fr_cpu r = Z.of_nat c /\
        fr_ts r = e_ts e /\ fr_lost r = e_lost e /\
        forall c' e' rest', nth_error pre c' = Some (e' :: rest') ->
          (e_ts e <= e_ts e')%N /\ ((c' < c)%nat -> (e_ts e < e_ts e')%N)
  end.

Definition ts_le (a b : entry) : Prop := (e_ts a <= e_ts b)%N.

(** Timestamps within one CPU buffer never decrease: the ring buffer stamps
    each event when it is written on that CPU. *)
Definition cpu_sorted (st : store) : Prop := Forall (StronglySorted ts_le) st.

(** What every read call returning from the [waitagain] label delivers. *)
Definition read_bounded (cnt : nat) (r : read_result) : Prop :=
  length (r_out r) <= cnt /\ length (r_out r) <= PAGE_SIZE - 1 /\
  (r_ret r <= Z.of_nat (PAGE_SIZE - 1))%Z /\
  seq_len (it_seq (r_iter r)) < PAGE_SIZE.

(** [a] happens before [b] in a log of startup effects. *)
Definition happens_before (a b : action) (log : list action) : Prop :=
  exists i j, nth_error log i = Some a /\ nth_error log j = Some b /\ i < j.

(** The formatted text of a session not yet copied to the user. *)
Definition unread (s : trace_seq) : list ascii := skipn (s_readpos s) (s_buf s).

(** ** Example inputs *)

(** A class printing the timestamp of the entry on a line. *)
Definition ts_line (e : entry) : list ascii :=
  decimal (N.to_nat (e_ts e)) ++ [ascii_of_nat 10].

Definition classes_ex : list print_event_class :=
  [mk_class 0 true ts_line; mk_class 1 true ts_line; mk_class 2 true ts_line].

(** Two CPUs: cpu0 holds events stamped 5 and 7, cpu1 one stamped 3. *)
Definition store_ex : store :=
  [[mk_entry 1 5 0 []; mk_entry 1 7 0 []]; [mk_entry 2 3 0 []]].

(** Two CPUs whose oldest events carry the same timestamp. *)
Definition store_tie : store :=
  [[mk_entry 1 4 0 []]; [mk_entry 2 4 2 []]].

Definition iter_fresh : iter := mk_iter trace_seq_init None 0 0 0.

(** A session still holding the unread line "5" after "3" was read. *)
Definition iter_leftover : iter :=
  mk_iter (mk_seq (list_ascii_of_string "3
5
") 2 false) None 0 0 0.

Definition wait_returns (_ : nat) (st : store) : Z * store := (0%Z, st).

Definition env_block : read_env := mk_env false false wait_returns.
Definition env_nonblock : read_env := mk_env true false wait_returns.
Definition env_fatal : read_env := mk_env false true wait_returns.

Definition init_all_ok : init_env := mk_ienv true true true true.

(** A class whose line alone nearly fills the output buffer. *)
Definition long_line (_ : entry) : list ascii := repeat (ascii_of_nat 120) 4095.

Definition classes_long : list print_event_class := [mk_class 0 true long_line].

Definition store_long : store := [[mk_entry 0 9 0 []]].

(** A session that has formatted "3" and not yet copied it out. *)
Definition iter_one_line : iter :=
  mk_iter (mk_seq (list_ascii_of_string "3
") 0 false) None 0 0 0.

(** One CPU holding one event of an unregistered class (id 7). *)
Definition store_unknown : store := [[mk_entry 7 9 0 []]].

(** A class whose line is a full page long: it can never fit the buffer. *)
Definition page_line (_ : entry) : list ascii := repeat (ascii_of_nat 120) 4096.

Definition classes_page : list print_event_class := [mk_class 0 true page_line].

(** * Properties *)

(** ** The merge *)

Section Merge.


Lemma nth_error_snoc_inv (A : Type) (pre : list A) (b x : A) (c : nat) :
  nth_error (pre ++ [b]) c = Some x ->
  (c < length pre /\ nth_error pre c = Some x) \/ (c = length pre /\ x = b).
Proof.
  intros H. destruct (Nat.lt_ge_cases c (length pre)) as [Hlt | Hge].
  - left. rewrite nth_error_app1 in H by exact Hlt. auto.
  - right. rewrite nth_error_app2 in H by exact Hge.
    destruct (c - length pre) as [| k] eqn:Hk; simpl in H.
    + split; [lia | congruence].
    + destruct k; discriminate.
Qed.

Lemma nth_error_snoc_last (A : Type) (pre : list A) (b : A) :
  nth_error (pre ++ [b]) (length pre) = Some b.
Proof.
  rewrite nth_error_app2 by lia. rewrite Nat.sub_diag. reflexivity.
Qed.

Lemma nth_error_snoc_old (A : Type) (pre : list A) (b x : A) (c : nat) :
  nth_error pre c = Some x -> nth_error (pre ++ [b]) c = Some x.
Proof.
  intros H. rewrite nth_error_app1; [exact H |].
  apply nth_error_Some. congruence.
Qed.

Lemma is_trace_empty_snoc (pre : store) (b : cpu_buffer) :
  is_trace_empty (pre ++ [b]) = is_trace_empty pre && buffer_empty b.
Proof.
  unfold is_trace_empty. rewrite forallb_app. simpl. now rewrite andb_true_r.
Qed.

Lemma is_trace_empty_nth (st : store) (c : nat) (e : entry) (rest : list entry) :
  is_trace_empty st = true -> nth_error st c = Some (e :: rest) -> False.
Proof.
  unfold is_trace_empty. rewrite forallb_forall. intros Hall Hc.
  apply nth_error_In in Hc. specialize (Hall _ Hc). discriminate.
Qed.

Lemma scan_inv_step (pre : store) (b : cpu_buffer) (acc : find_result) :
  scan_inv pre acc ->
  scan_inv (pre ++ [b])
    (if buffer_empty b then acc
     else match hd_error b with
          | Some e =>
              if match fr_ent acc with
                 | None => true
                 | Some _ => (e_ts e <? fr_ts acc)%N
                 end
              then mk_find (Some e) (Z.of_nat (length pre)) (e_ts e) (e_lost e)
              else acc
          | None => acc
          end).
Proof.
  unfold scan_inv. intros Hinv.
  destruct b as [| e rest]; simpl.
  - (* an empty CPU is skipped *)
    destruct (fr_ent acc) as [a |].
    + destruct Hinv as (c & r & Hc & Hcpu & Hts & Hl & Hmin).
      exists c, r. split; [now apply nth_error_snoc_old |].
      do 3 (split; [assumption |]).
      intros c' e' r' H'. apply nth_error_snoc_inv in H' as [[_ H'] | [_ H']].
      * exact (Hmin _ _ _ H').
      * discriminate.
    + destruct Hinv as (He & ?). rewrite is_trace_empty_snoc, He. auto.
  - destruct (fr_ent acc) as [a |] eqn:Hacc.
    + destruct Hinv as (c & r & Hc & Hcpu & Hts & Hl & Hmin).
      assert (Hclt : c < length pre) by (apply nth_error_Some; congruence).
      destruct (e_ts e <? fr_ts acc)%N eqn:Hlt.
      * (* strictly smaller: the new CPU becomes the candidate *)
        apply N.ltb_lt in Hlt. simpl.
        exists (length pre), rest. split; [apply nth_error_snoc_last |].
        do 3 (split; [reflexivity |]).
        intros c' e' r' H'. apply nth_error_snoc_inv in H' as [[Hc' H'] | [Heq H']].
        -- destruct (Hmin _ _ _ H'). split; lia.
        -- inversion H'; subst. split; [apply N.le_refl | intros Hx; exfalso; exact (Nat.lt_irrefl _ Hx)].
      * (* not smaller: the earlier candidate is kept *)
        apply N.ltb_ge in Hlt. rewrite Hacc.
        exists c, r. split; [now apply nth_error_snoc_old |].
        do 3 (split; [assumption |]).
        intros c' e' r' H'. apply nth_error_snoc_inv in H' as [[_ H'] | [Heq H']].
        -- exact (Hmin _ _ _ H').
        -- inversion H'; subst. split; [rewrite <- Hts; exact Hlt | intros Hx; lia].
    + (* first non-empty CPU *)
      destruct Hinv as (He & _). simpl.
      exists (length pre), rest. split; [apply nth_error_snoc_last |].
      do 3 (split; [reflexivity |]).
      intros c' e' r' H'. apply nth_error_snoc_inv in H' as [[_ H'] | [Heq H']].
      * exfalso. exact (is_trace_empty_nth _ _ _ _ He H').
      * inversion H'; subst. split; [apply N.le_refl | intros Hx; exfalso; exact (Nat.lt_irrefl _ Hx)].
Qed.

Lemma scan_cpus_inv (bs pre : store) (acc : find_result) :
  scan_inv pre acc -> scan_inv (pre ++ bs) (scan_cpus (length pre) bs acc).
Proof.
  revert pre acc. induction bs as [| b bs IH]; intros pre acc Hinv.
  - simpl. now rewrite app_nil_r.
  - replace (pre ++ b :: bs) with ((pre ++ [b]) ++ bs) by now rewrite <- app_assoc.
    pose proof (scan_inv_step pre b acc Hinv) as Hstep.
    pose proof (IH _ _ Hstep) as Hr. rewrite length_app in Hr. simpl in Hr.
    rewrite Nat.add_1_r in Hr. simpl.
    destruct (buffer_empty b); [exact Hr |].
    destruct (hd_error b) as [e |]; [| exact Hr].
    destruct (match fr_ent acc with
              | None => true
              | Some _ => (e_ts e <? fr_ts acc)%N
              end); exact Hr.
Qed.

Lemma find_next_entry_inv (st : store) : scan_inv st (find_next_entry st).
Proof.
  apply (scan_cpus_inv st [] find_init). unfold scan_inv. simpl. auto.
Qed.

End Merge.

Section Drain.



Lemma consume_sorted (st : store) (c : nat) :
  cpu_sorted st -> cpu_sorted (ring_buffer_consume st c).
Proof.
  unfold cpu_sorted. revert c.
  induction st as [| b bs IH]; intros c H; [constructor |].
  inversion H as [| ? ? Hb Hbs]; subst.
  destruct c as [| c]; simpl; constructor; auto.
  destruct b as [| x b]; simpl; [constructor |].
  now apply StronglySorted_inv in Hb as [Hb _].
Qed.

Lemma consume_incl (st : store) (c : nat) (x : entry) :
  In x (concat (ring_buffer_consume st c)) -> In x (concat st).
Proof.
  revert c. induction st as [| b bs IH]; intros c Hx; [exact Hx |].
  destruct c as [| c]; simpl in *; apply in_app_or in Hx as [Hx | Hx];
    apply in_or_app.
  - left. destruct b; simpl in *; tauto.
  - now right.
  - now left.
  - right. exact (IH _ Hx).
Qed.

Lemma find_some_at (st : store) (e : entry) :
  fr_ent (find_next_entry st) = Some e ->
  exists c rest, nth_error st c = Some (e :: rest) /\
                 fr_cpu (find_next_entry st) = Z.of_nat c.
Proof.
  intros He. pose proof (find_next_entry_inv st) as Hinv.
  unfold scan_inv in Hinv. rewrite He in Hinv.
  destruct Hinv as (c & rest & Hc & Hcpu & _). eauto.
Qed.

(** The selected entry is no later than any entry still in the store. *)
Lemma find_min_all (st : store) (e x : entry) :
  cpu_sorted st -> fr_ent (find_next_entry st) = Some e ->
  In x (concat st) -> ts_le e x.
Proof.
  intros Hs He Hx. pose proof (find_next_entry_inv st) as Hinv.
  unfold scan_inv in Hinv. rewrite He in Hinv.
  destruct Hinv as (c & rest & _ & _ & _ & _ & Hmin).
  apply in_concat in Hx as (b & Hb & Hxb).
  apply In_nth_error in Hb as (c' & Hc').
  destruct b as [| y b]; [destruct Hxb |].
  destruct (Hmin _ _ _ Hc') as [Hey _].
  unfold cpu_sorted in Hs. rewrite Forall_forall in Hs.
  pose proof (Hs _ (nth_error_In _ _ Hc')) as Hsb.
  destruct Hxb as [<- | Hxb]; unfold ts_le; [exact Hey |].
  apply StronglySorted_inv in Hsb as [_ Hy].
  rewrite Forall_forall in Hy. specialize (Hy _ Hxb). unfold ts_le in Hy. lia.
Qed.

Lemma drain_incl (k : nat) (st : store) (x : entry) :
  In x (fst (drain k st)) -> In x (concat st).
Proof.
  revert st. induction k as [| k IH]; intros st Hx; simpl in Hx; [destruct Hx |].
  destruct (fr_ent (find_next_entry st)) as [e |] eqn:He; [| destruct Hx].
  destruct (drain k _) as [l st'] eqn:Hd. simpl in Hx.
  destruct Hx as [<- | Hx].
  - destruct (find_some_at st e He) as (c & rest & Hc & _).
    apply in_concat. exists (e :: rest). split; [exact (nth_error_In _ _ Hc) | now left].
  - apply consume_incl with (c := Z.to_nat (fr_cpu (find_next_entry st))).
    apply IH. now rewrite Hd.
Qed.

Lemma drain_sorted (k : nat) (st : store) :
  cpu_sorted st -> StronglySorted ts_le (fst (drain k st)).
Proof.
  revert st. induction k as [| k IH]; intros st Hs; simpl; [constructor |].
  destruct (fr_ent (find_next_entry st)) as [e |] eqn:He; [| constructor].
  set (st1 := ring_buffer_consume st _).
  assert (Hs1 : cpu_sorted st1) by now apply consume_sorted.
  pose proof (IH st1 Hs1) as Hrest.
  assert (Hall : forall x, In x (fst (drain k st1)) -> ts_le e x).
  { intros x Hx. apply (find_min_all st e x Hs He).
    apply consume_incl with (c := Z.to_nat (fr_cpu (find_next_entry st))).
    exact (drain_incl _ _ _ Hx). }
  destruct (drain k st1) as [l st'] eqn:Hd. simpl in *.
  constructor; [exact Hrest |]. now apply Forall_forall.
Qed.

End Drain.

(** ** The format loop *)

Section FormatLoop.

Variable classes : list print_event_class.

Lemma print_trace_fmt_line_spec (s : trace_seq) (e : entry) :
  s_full s = false -> seq_len s < PAGE_SIZE ->
  print_trace_fmt_line classes s e =
  if seq_len s + length (line_of classes e) <? PAGE_SIZE
  then (mk_seq (s_buf s ++ line_of classes e) (s_readpos s) false, TRACE_TYPE_HANDLED)
  else (mk_seq (s_buf s) (s_readpos s) true, TRACE_TYPE_PARTIAL_LINE).
Proof.
  intros Hfull Hlen.
  unfold print_trace_fmt_line, line_of, trace_seq_has_overflowed.
  rewrite Hfull. replace (PAGE_SIZE <? seq_len s) with false
    by (symmetry; apply Nat.ltb_ge; lia).
  simpl.
  destruct (find_print_event classes (e_id e)) as [c |];
    unfold class_format, trace_seq_printf, trace_handle_return,
      trace_seq_has_overflowed; rewrite Hfull;
    destruct (seq_len s + length _ <? PAGE_SIZE) eqn:Hfit; simpl; try reflexivity;
    apply Nat.ltb_lt in Hfit; unfold seq_len in *; simpl;
    rewrite length_app; replace (PAGE_SIZE <? _) with false
      by (symmetry; apply Nat.ltb_ge; lia); reflexivity.
Qed.

Lemma fmt_step_spec (it : iter) (st : store) (cnt : nat) :
  s_full (it_seq it) = false -> seq_len (it_seq it) < PAGE_SIZE ->
  match fr_ent (find_next_entry st) with
  | None => fmt_step classes it st cnt = (trace_next_entry_inc it st, st, false)
  | Some e =>
      let s := it_seq it in
      let line := line_of classes e in
      let cpu := fr_cpu (find_next_entry st) in
      if seq_len s + length line <? PAGE_SIZE then
        fmt_step classes it st cnt =
        (mk_iter (mk_seq (s_buf s ++ line) (s_readpos s) false) (Some e) (e_lost e) cpu (e_ts e),
         ring_buffer_consume st (Z.to_nat cpu),
         negb (cnt <=? trace_seq_used (mk_seq (s_buf s ++ line) (s_readpos s) false)))
      else
        fmt_step classes it st cnt =
        (set_seq (trace_next_entry_inc it st) (mk_seq (s_buf s) (s_readpos s) true), st, false)
  end.
Proof.
  intros Hfull Hlen. unfold fmt_step.
  destruct (fr_ent (find_next_entry st)) as [e |] eqn:He;
    unfold trace_next_entry_inc at 1; simpl; rewrite He; [| reflexivity].
  rewrite (print_trace_fmt_line_spec (it_seq it) e Hfull Hlen).
  destruct (seq_len (it_seq it) + length (line_of classes e) <? PAGE_SIZE); simpl.
  - reflexivity.
  - unfold set_seq, trace_next_entry_inc. simpl. rewrite He.
    unfold seq_len. rewrite firstn_all. reflexivity.
Qed.

(** The loop leaves in the buffer the complete lines of exactly the
    entries it consumed, in merge order; when it stops on a partial line,
    the buffer ends where that attempt started and the entry is still the
    one the merge selects. *)
Lemma fmt_loop_lines (fuel : nat) (it : iter) (st : store) (cnt : nat) :
  s_full (it_seq it) = false -> seq_len (it_seq it) < PAGE_SIZE ->
  let '(it', st') := fmt_loop fuel classes it st cnt in
  exists k,
    st' = snd (drain k st) /\
    s_buf (it_seq it') = s_buf (it_seq it) ++ concat (map (line_of classes) (fst (drain k st))) /\
    s_readpos (it_seq it') = s_readpos (it_seq it) /\
    (s_full (it_seq it') = true ->
       exists e, it_ent it' = Some e /\ fr_ent (find_next_entry st') = Some e /\
         PAGE_SIZE <= seq_len (it_seq it') + length (line_of classes e)).
Proof.
  revert it st. induction fuel as [| f IH]; intros it st Hfull Hlen.
  - exists 0. simpl. rewrite app_nil_r. rewrite Hfull. repeat split; congruence.
  - simpl. pose proof (fmt_step_spec it st cnt Hfull Hlen) as Hstep.
    destruct (fr_ent (find_next_entry st)) as [e |] eqn:He.
    + simpl in Hstep.
      destruct (seq_len (it_seq it) + length (line_of classes e) <? PAGE_SIZE) eqn:Hfit.
      * apply Nat.ltb_lt in Hfit. rewrite Hstep.
        set (it1 := mk_iter _ _ _ _ _).
        set (st1 := ring_buffer_consume st _).
        assert (Hd : forall k, drain (S k) st =
                  (e :: fst (drain k st1), snd (drain k st1))).
        { intros k. simpl. rewrite He. subst st1. destruct (drain k _); reflexivity. }
        destruct (negb _).
        -- assert (Hfull1 : s_full (it_seq it1) = false) by reflexivity.
           assert (Hlen1 : seq_len (it_seq it1) < PAGE_SIZE)
             by (unfold seq_len in *; simpl; rewrite length_app; lia).
           specialize (IH it1 st1 Hfull1 Hlen1).
           destruct (fmt_loop f classes it1 st1 cnt) as [it' st'].
           destruct IH as (k & Hst & Hbuf & Hrp & Hpart).
           exists (S k). rewrite Hd. simpl.
           split; [exact Hst |]. split; [| split; [exact Hrp | exact Hpart]].
           rewrite Hbuf. simpl. now rewrite app_assoc.
        -- exists 1. rewrite Hd. simpl. rewrite !app_nil_r.
           repeat split; discriminate.
      * apply Nat.ltb_ge in Hfit. rewrite Hstep.
        exists 0. simpl. rewrite app_nil_r. split; [reflexivity |].
        split; [reflexivity |]. split; [reflexivity |].
        intros _. exists e. unfold trace_next_entry_inc. simpl. rewrite He.
        split; [reflexivity |]. split; [reflexivity |]. exact Hfit.
    + rewrite Hstep. exists 0. simpl. rewrite app_nil_r.
      rewrite Hfull. repeat split; congruence.
Qed.

End FormatLoop.

(** ** The read call *)

Section ReadCall.

Variable classes : list print_event_class.

Lemma PAGE_SIZE_pos : 1 <= PAGE_SIZE.
Proof. unfold PAGE_SIZE. lia. Qed.

Lemma trace_seq_to_user_bounds (s : trace_seq) (cnt : nat) :
  seq_len s < PAGE_SIZE ->
  let '(ret, out, s') := trace_seq_to_user s cnt in
  length out <= cnt /\ length out < PAGE_SIZE /\
  (ret = Z.of_nat (length out) \/ ret = (- EBUSY)%Z) /\
  s_buf s' = s_buf s.
Proof.
  intros Hlen. unfold trace_seq_to_user.
  destruct (cnt =? 0) eqn:H0.
  { simpl. pose proof PAGE_SIZE_pos. split; [lia |]. split; [lia |]. auto. }
  destruct (trace_seq_used s <=? s_readpos s) eqn:Hu.
  { simpl. pose proof PAGE_SIZE_pos. split; [lia |]. split; [lia |]. auto. }
  apply Nat.leb_gt in Hu. unfold trace_seq_used, seq_len in *.
  rewrite length_firstn, length_skipn.
  repeat split; try lia; left; f_equal; lia.
Qed.

Lemma fmt_loop_len (fuel : nat) (it : iter) (st : store) (cnt : nat) :
  s_full (it_seq it) = false -> seq_len (it_seq it) < PAGE_SIZE ->
  seq_len (it_seq (fst (fmt_loop fuel classes it st cnt))) < PAGE_SIZE.
Proof.
  revert it st. induction fuel as [| f IH]; intros it st Hfull Hlen; [exact Hlen |].
  simpl. pose proof (fmt_step_spec classes it st cnt Hfull Hlen) as Hstep.
  destruct (fr_ent (find_next_entry st)) as [e |].
  - simpl in Hstep.
    destruct (seq_len (it_seq it) + length (line_of classes e) <? PAGE_SIZE) eqn:Hfit;
      rewrite Hstep.
    + apply Nat.ltb_lt in Hfit.
      assert (Hl : seq_len (mk_seq (s_buf (it_seq it) ++ line_of classes e)
                           (s_readpos (it_seq it)) false) < PAGE_SIZE)
        by (unfold seq_len in *; simpl; rewrite length_app; lia).
      destruct (negb _); [apply IH; [reflexivity | exact Hl] | exact Hl].
    + exact Hlen.
  - rewrite Hstep. exact Hlen.
Qed.

Opaque PAGE_SIZE.


Lemma read_waitagain_bounded (fuel : nat) (env : read_env) (it : iter)
  (st : store) (cnt nw : nat) (sret : Z) (r : read_result) :
  seq_len (it_seq it) < PAGE_SIZE -> (sret <= 0)%Z ->
  read_waitagain fuel env classes it st cnt nw sret = Some r ->
  read_bounded cnt r.
Proof.
  revert it st cnt nw sret. induction fuel as [| f IH];
    intros it st cnt nw sret Hlen Hsret Hr; [discriminate |].
  unfold read_bounded. cbn [read_waitagain] in Hr.
  destruct (fatal_signal_pending env).
  { inversion Hr; subst; simpl. pose proof PAGE_SIZE_pos. repeat split; lia. }
  destruct (trace_wait_pipe f env nw st) as [[[w st1] nw1] |]; [| discriminate].
  destruct (w <=? 0)%Z eqn:Hw.
  { inversion Hr; subst; simpl. apply Z.leb_le in Hw. pose proof PAGE_SIZE_pos.
    repeat split; lia. }
  destruct (is_trace_empty st1).
  { inversion Hr; subst; simpl. pose proof PAGE_SIZE_pos. repeat split; lia. }
  set (cnt1 := if PAGE_SIZE <=? cnt then PAGE_SIZE - 1 else cnt) in Hr.
  assert (Hc1 : cnt1 <= cnt /\ cnt1 <= PAGE_SIZE - 1).
  { subst cnt1. destruct (PAGE_SIZE <=? cnt) eqn:Hp;
      [apply Nat.leb_le in Hp | apply Nat.leb_gt in Hp]; lia. }
  pose proof (fmt_loop_len (S (store_size st1)) (iter_reset it) st1 cnt1
                eq_refl ltac:(unfold seq_len; simpl; pose proof PAGE_SIZE_pos; lia)) as Hl.
  destruct (fmt_loop _ classes (iter_reset it) st1 cnt1) as [it2 st2].
  simpl in Hl.
  pose proof (trace_seq_to_user_bounds (it_seq it2) cnt1 Hl) as Hu.
  destruct (trace_seq_to_user (it_seq it2) cnt1) as [[ret out] s3].
  destruct Hu as (Ho1 & Ho2 & Hret & Hbuf).
  set (s4 := if trace_seq_used s3 <=? s_readpos s3 then trace_seq_init else s3) in Hr.
  assert (Hl4 : seq_len s4 < PAGE_SIZE).
  { subst s4. destruct (trace_seq_used s3 <=? s_readpos s3); unfold seq_len in *;
      [unfold trace_seq_init; simpl; pose proof PAGE_SIZE_pos; lia | rewrite Hbuf; exact Hl]. }
  destruct (ret =? - EBUSY)%Z eqn:Hb.
  - apply Z.eqb_eq in Hb. subst ret.
    pose proof (IH (set_seq it2 s4) st2 cnt1 nw1 (- EBUSY)%Z Hl4
                  ltac:(unfold EBUSY; lia) Hr) as Hrec.
    unfold read_bounded in Hrec. lia.
  - inversion Hr; subst; simpl.
    destruct Hret as [-> | ->]; pose proof PAGE_SIZE_pos; repeat split; lia.
Qed.

End ReadCall.

Lemma trace_wait_pipe_nonblock_empty (fuel : nat) (env : read_env) (nw : nat)
  (st : store) :
  is_trace_empty st = true -> f_nonblock env = true ->
  trace_wait_pipe fuel env nw st = Some ((- EAGAIN)%Z, st, nw).
Proof.
  intros He Hnb. destruct fuel; simpl; rewrite He, Hnb; reflexivity.
Qed.

(** With nothing left to read and a non-empty request, the first copy
    reports [-EBUSY] and leaves the buffer as it is. *)
Lemma trace_seq_to_user_drained (s : trace_seq) (cnt : nat) :
  trace_seq_used s <= s_readpos s -> 0 < cnt ->
  trace_seq_to_user s cnt = ((- EBUSY)%Z, [], s).
Proof.
  intros Hu Hc. unfold trace_seq_to_user.
  destruct cnt as [| c]; [lia |]. simpl.
  apply Nat.leb_le in Hu. rewrite Hu. reflexivity.
Qed.

Lemma trace_read_pipe_drained (fuel : nat) (env : read_env)
  (classes : list print_event_class) (it : iter) (st : store) (cnt : nat) :
  trace_seq_used (it_seq it) <= s_readpos (it_seq it) -> 0 < cnt ->
  trace_read_pipe fuel env classes it st cnt =
  read_waitagain fuel env classes (set_seq it trace_seq_init) st cnt 0 (- EBUSY).
Proof.
  intros Hu Hc. unfold trace_read_pipe.
  rewrite (trace_seq_to_user_drained _ _ Hu Hc). reflexivity.
Qed.

(** A read that does not reach the [waitagain] label returns from the
    first copy, with the store untouched and no wait. *)
Lemma trace_read_pipe_first_copy (fuel : nat) (env : read_env)
  (classes : list print_event_class) (it : iter) (st : store) (cnt : nat) :
  (cnt = 0 \/ s_readpos (it_seq it) < trace_seq_used (it_seq it)) ->
  exists r, trace_read_pipe fuel env classes it st cnt = Some r /\
    r_store r = st /\ r_waits r = 0 /\ (0 <= r_ret r)%Z.
Proof.
  intros Hc. unfold trace_read_pipe, trace_seq_to_user.
  destruct (cnt =? 0) eqn:H0.
  - simpl. eexists. split; [reflexivity | auto with zarith].
  - destruct Hc as [Hc | Hc]; [apply Nat.eqb_neq in H0; contradiction |].
    replace (trace_seq_used (it_seq it) <=? s_readpos (it_seq it)) with false
      by (symmetry; apply Nat.leb_gt; exact Hc).
    set (n := Nat.min cnt _).
    replace (negb (Z.of_nat n =? - EBUSY)%Z) with true
      by (symmetry; apply negb_true_iff, Z.eqb_neq; unfold EBUSY; lia).
    eexists. split; [reflexivity |]. simpl. split; [reflexivity |]. split; lia.
Qed.

(** A read of length 0 returns 0 from the first copy. *)
Lemma trace_read_pipe_zero_eq (fuel : nat) (env : read_env)
  (classes : list print_event_class) (it : iter) (st : store) :
  trace_read_pipe fuel env classes it st 0 = Some (mk_res 0 [] it st 0).
Proof.
  unfold trace_read_pipe, trace_seq_to_user. cbn.
  destruct it as [s e l c t]. reflexivity.
Qed.

(** With unread text in the session, a read of non-zero length returns
    from the first copy with the next bytes of that text. *)
Lemma trace_read_pipe_leftover_eq (fuel : nat) (env : read_env)
  (classes : list print_event_class) (it : iter) (st : store) (cnt : nat) :
  0 < cnt -> s_readpos (it_seq it) < trace_seq_used (it_seq it) ->
  let s := it_seq it in
  let n := Nat.min cnt (trace_seq_used s - s_readpos s) in
  0 < n /\
  trace_read_pipe fuel env classes it st cnt =
  Some (mk_res (Z.of_nat n) (firstn n (skipn (s_readpos s) (s_buf s)))
          (set_seq it (mk_seq (s_buf s) (s_readpos s + n) (s_full s))) st 0).
Proof.
  intros Hc Hl s n. subst s n. split; [lia |].
  unfold trace_read_pipe, trace_seq_to_user.
  destruct cnt as [| c]; [lia |].
  replace (S c =? 0) with false by reflexivity.
  replace (trace_seq_used (it_seq it) <=? s_readpos (it_seq it)) with false
    by (symmetry; apply Nat.leb_gt; exact Hl).
  replace (negb (Z.of_nat (Nat.min (S c) (trace_seq_used (it_seq it) - s_readpos (it_seq it)))
                 =? - EBUSY)%Z) with true
    by (symmetry; apply negb_true_iff, Z.eqb_neq; unfold EBUSY; lia).
  reflexivity.
Qed.


(** ** Claims on the read call *)

(** C3 (amended): a non-blocking read on a store whose CPU buffers are all
    empty never calls the wait primitive and leaves every CPU buffer as it
    is. It returns [-EAGAIN] with no data when the session holds no unread
    text, the requested length is not zero and no fatal signal is pending;
    [-EBUSY] with no data when a fatal signal is pending instead; 0 with no
    data for a zero-length request; and, when the session holds unread
    text, the next bytes of that text (at least one) and their count. *)
Theorem nonblock_read_empty_store (fuel : nat) (env : read_env)
  (classes : list print_event_class) (it : iter) (st : store) (cnt : nat) :
  f_nonblock env = true -> is_trace_empty st = true ->
  exists r, trace_read_pipe (S fuel) env classes it st cnt = Some r /\
    r_store r = st /\ r_waits r = 0 /\
    (trace_seq_used (it_seq it) <= s_readpos (it_seq it) -> 0 < cnt ->
     fatal_signal_pending env = false -> r_ret r = (- EAGAIN)%Z) /\
    (trace_seq_used (it_seq it) <= s_readpos (it_seq it) -> 0 < cnt ->
     fatal_signal_pending env = true -> r_ret r = (- EBUSY)%Z) /\
    (cnt = 0 -> r_ret r = 0%Z) /\
    (cnt = 0 \/ trace_seq_used (it_seq it) <= s_readpos (it_seq it) -> r_out r = []) /\
    (0 < cnt -> s_readpos (it_seq it) < trace_seq_used (it_seq it) ->
     let s := it_seq it in
     let n := Nat.min cnt (trace_seq_used s - s_readpos s) in
     0 < n /\ r_ret r = Z.of_nat n /\
     r_out r = firstn n (skipn (s_readpos s) (s_buf s))).
Proof.
  intros Hnb He.
  destruct (Nat.eq_dec cnt 0) as [Hc | Hc].
  { subst cnt. rewrite trace_read_pipe_zero_eq. eexists.
    split; [reflexivity |]. cbn [r_store r_waits r_ret r_out].
    split; [reflexivity |]. split; [reflexivity |].
    split; [intros _ H; lia |]. split; [intros _ H; lia |].
    split; [reflexivity |]. split; [reflexivity |]. intros H; lia. }
  destruct (Nat.lt_ge_cases (s_readpos (it_seq it)) (trace_seq_used (it_seq it)))
    as [Hl | Hl].
  { destruct (trace_read_pipe_leftover_eq (S fuel) env classes it st cnt
                ltac:(lia) Hl) as [Hn Heq].
    rewrite Heq. eexists. split; [reflexivity |]. cbn [r_store r_waits r_ret r_out].
    split; [reflexivity |]. split; [reflexivity |].
    split; [intros Hu; lia |]. split; [intros Hu; lia |].
    split; [intros H; lia |]. split; [intros [H | H]; lia |].
    intros _ _. auto. }
  rewrite trace_read_pipe_drained by lia. cbn [read_waitagain].
  destruct (fatal_signal_pending env) eqn:Hf.
  - eexists. split; [reflexivity |]. cbn [r_store r_waits r_ret r_out].
    split; [reflexivity |]. split; [reflexivity |].
    split; [intros _ _ H; discriminate |]. split; [reflexivity |].
    split; [intros H; lia |]. split; [reflexivity |]. intros _ H; lia.
  - rewrite trace_wait_pipe_nonblock_empty by assumption.
    eexists. split; [reflexivity |]. cbn [r_store r_waits r_ret r_out].
    split; [reflexivity |]. split; [reflexivity |].
    split; [reflexivity |]. split; [intros _ _ H; discriminate |].
    split; [intros H; lia |]. split; [reflexivity |]. intros _ H; lia.
Qed.

Lemma nonblock_read_empty_store_witness :
  f_nonblock env_nonblock = true /\ is_trace_empty [[]; []] = true /\
  exists r, trace_read_pipe 1 env_nonblock classes_ex iter_fresh [[]; []] 10 = Some r /\
    r_store r = [[]; []] /\ r_waits r = 0 /\ r_ret r = (- EAGAIN)%Z /\ r_out r = [].
Proof.
  split; [reflexivity |]. split; [reflexivity |].
  destruct (nonblock_read_empty_store 0 env_nonblock classes_ex iter_fresh [[]; []] 10
              eq_refl eq_refl) as (r & Hr & Hs & Hw & Hag & _ & _ & Hout & _).
  exists r. split; [exact Hr |]. split; [exact Hs |]. split; [exact Hw |].
  split; [apply Hag; [apply Nat.leb_le; reflexivity | lia | reflexivity] |].
  apply Hout. right. apply Nat.leb_le. reflexivity.
Defined.

(** C3 fails as stated: with unread text left in the session, a
    non-blocking read on an empty store returns that text (2 bytes), not
    [-EAGAIN]. *)
Lemma nonblock_empty_store_returns_leftover :
  f_nonblock env_nonblock = true /\ is_trace_empty [[]; []] = true /\
  option_map r_ret (trace_read_pipe 1 env_nonblock classes_ex iter_leftover [[]; []] 100)
  = Some 2%Z.
Proof. repeat split; vm_compute; reflexivity. Qed.

(** C6 (amended): with a fatal signal pending, a read call never waits and
    leaves every CPU buffer as it is. When the session holds no unread text
    and the requested length is not zero it returns [-EBUSY] with no data, a
    value distinct from [-EAGAIN], from 0 and from any byte count. A
    zero-length request returns 0 with no data, and unread text in the
    session is still delivered first: the call returns the next bytes of
    it (at least one) and their count, as an ordinary data read. *)
Theorem fatal_signal_read (fuel : nat) (env : read_env)
  (classes : list print_event_class) (it : iter) (st : store) (cnt : nat) :
  fatal_signal_pending env = true ->
  exists r, trace_read_pipe (S fuel) env classes it st cnt = Some r /\
    r_store r = st /\ r_waits r = 0 /\
    (trace_seq_used (it_seq it) <= s_readpos (it_seq it) -> 0 < cnt ->
       r_ret r = (- EBUSY)%Z /\ r_out r = []) /\
    (- EBUSY <> - EAGAIN /\ - EBUSY < 0)%Z /\
    (cnt = 0 -> r_ret r = 0%Z /\ r_out r = []) /\
    (0 < cnt -> s_readpos (it_seq it) < trace_seq_used (it_seq it) ->
     let s := it_seq it in
     let n := Nat.min cnt (trace_seq_used s - s_readpos s) in
     0 < n /\ r_ret r = Z.of_nat n /\
     r_out r = firstn n (skipn (s_readpos s) (s_buf s))).
Proof.
  intros Hf.
  assert (Hne : (- EBUSY <> - EAGAIN /\ - EBUSY < 0)%Z)
    by (unfold EBUSY, EAGAIN; lia).
  destruct (Nat.eq_dec cnt 0) as [Hc | Hc].
  { subst cnt. rewrite trace_read_pipe_zero_eq. eexists.
    split; [reflexivity |]. cbn [r_store r_waits r_ret r_out].
    split; [reflexivity |]. split; [reflexivity |].
    split; [intros _ H; lia |]. split; [exact Hne |].
    split; [auto | intros H; lia]. }
  destruct (Nat.lt_ge_cases (s_readpos (it_seq it)) (trace_seq_used (it_seq it)))
    as [Hl | Hl].
  { destruct (trace_read_pipe_leftover_eq (S fuel) env classes it st cnt
                ltac:(lia) Hl) as [Hn Heq].
    rewrite Heq. eexists. split; [reflexivity |]. cbn [r_store r_waits r_ret r_out].
    split; [reflexivity |]. split; [reflexivity |].
    split; [intros Hu; lia |]. split; [exact Hne |].
    split; [intros H; lia |]. intros _ _. auto. }
  rewrite trace_read_pipe_drained by lia. cbn [read_waitagain]. rewrite Hf.
  eexists. split; [reflexivity |]. cbn [r_store r_waits r_ret r_out].
  split; [reflexivity |]. split; [reflexivity |].
  split; [auto |]. split; [exact Hne |].
  split; [intros H; lia | intros _ H; lia].
Qed.

Lemma fatal_signal_read_witness :
  fatal_signal_pending env_fatal = true /\
  exists r, trace_read_pipe 1 env_fatal classes_ex iter_fresh store_ex 10 = Some r /\
    r_store r = store_ex /\ r_waits r = 0 /\
    r_ret r = (- EBUSY)%Z /\ r_out r = [].
Proof.
  split; [reflexivity |].
  destruct (fatal_signal_read 0 env_fatal classes_ex iter_fresh store_ex 10 eq_refl)
    as (r & Hr & Hs & Hw & Hb & _).
  exists r. split; [exact Hr |]. split; [exact Hs |]. split; [exact Hw |].
  apply Hb; [apply Nat.leb_le; reflexivity | lia].
Defined.

(** C6 fails as stated: with a fatal signal pending and unread text left
    in the session, the read returns that text (2 bytes) rather than a
    cancellation outcome. *)
Lemma fatal_signal_read_returns_leftover :
  fatal_signal_pending env_fatal = true /\
  option_map r_ret (trace_read_pipe 1 env_fatal classes_ex iter_leftover store_ex 100)
  = Some 2%Z.
Proof. split; vm_compute; reflexivity. Qed.

(** C8: while the session holds unread text, a read copies up to the
    requested length of it from the read position, advances the read
    position by that much, and returns at once: the store is unchanged and
    the wait primitive is not called. *)
Theorem trace_read_pipe_leftover_flush (fuel : nat) (env : read_env)
  (classes : list print_event_class) (it : iter) (st : store) (cnt : nat) :
  s_readpos (it_seq it) < trace_seq_used (it_seq it) ->
  let s := it_seq it in
  let n := Nat.min cnt (trace_seq_used s - s_readpos s) in
  trace_read_pipe fuel env classes it st cnt =
  Some (mk_res (Z.of_nat n) (firstn n (skipn (s_readpos s) (s_buf s)))
          (set_seq it (mk_seq (s_buf s) (s_readpos s + n) (s_full s))) st 0).
Proof.
  intros Hl s n. unfold trace_read_pipe, trace_seq_to_user. subst s n.
  destruct cnt as [| c].
  - simpl. destruct (it_seq it) as [b rp f]. simpl. now rewrite Nat.add_0_r.
  - replace (S c =? 0) with false by reflexivity.
    replace (trace_seq_used (it_seq it) <=? s_readpos (it_seq it)) with false
      by (symmetry; apply Nat.leb_gt; exact Hl).
    replace (negb (Z.of_nat (Nat.min (S c) (trace_seq_used (it_seq it) - s_readpos (it_seq it)))
                   =? - EBUSY)%Z) with true
      by (symmetry; apply negb_true_iff, Z.eqb_neq; unfold EBUSY; lia).
    reflexivity.
Qed.

Lemma trace_read_pipe_leftover_flush_witness :
  s_readpos (it_seq iter_leftover) < trace_seq_used (it_seq iter_leftover) /\
  trace_read_pipe 0 env_block classes_ex iter_leftover store_ex 1 =
  Some (mk_res 1 [ascii_of_nat 53]
          (set_seq iter_leftover (mk_seq (s_buf (it_seq iter_leftover)) 3 false)) store_ex 0).
Proof.
  split; [apply Nat.ltb_lt; vm_compute; reflexivity |].
  apply (trace_read_pipe_leftover_flush 0 env_block classes_ex iter_leftover store_ex 1).
  apply Nat.ltb_lt; vm_compute; reflexivity.
Defined.

(** C10: whatever the requested length, a read call copies at most
    [PAGE_SIZE - 1] bytes (and at most the requested length), returns at
    most [PAGE_SIZE - 1], and leaves less than [PAGE_SIZE] bytes formatted
    in the session. *)
Theorem trace_read_pipe_page_bounded (fuel : nat) (env : read_env)
  (classes : list print_event_class) (it : iter) (st : store) (cnt : nat)
  (r : read_result) :
  seq_len (it_seq it) < PAGE_SIZE ->
  trace_read_pipe fuel env classes it st cnt = Some r ->
  length (r_out r) <= cnt /\ length (r_out r) <= PAGE_SIZE - 1 /\
  (r_ret r <= Z.of_nat (PAGE_SIZE - 1))%Z /\ seq_len (it_seq (r_iter r)) < PAGE_SIZE.
Proof.
  intros Hlen Hr. unfold trace_read_pipe in Hr.
  pose proof (trace_seq_to_user_bounds (it_seq it) cnt Hlen) as Hu.
  destruct (trace_seq_to_user (it_seq it) cnt) as [[ret out] s1].
  destruct Hu as (Ho1 & Ho2 & Hret & Hbuf).
  destruct (negb (ret =? - EBUSY)%Z) eqn:Hb.
  - inversion Hr; subst; cbn [r_out r_ret r_iter set_seq it_seq].
    apply negb_true_iff, Z.eqb_neq in Hb.
    destruct Hret as [-> | ->]; [| contradiction].
    unfold seq_len in *. rewrite Hbuf. repeat split; lia.
  - apply (read_waitagain_bounded classes fuel env (set_seq it trace_seq_init) st cnt 0 ret r); auto.
    + unfold seq_len, trace_seq_init. simpl. pose proof PAGE_SIZE_pos. lia.
    + apply negb_false_iff, Z.eqb_eq in Hb. subst ret. unfold EBUSY. lia.
Qed.

Lemma trace_read_pipe_page_bounded_witness :
  seq_len (it_seq iter_fresh) < PAGE_SIZE /\
  trace_read_pipe 1 env_block classes_ex iter_fresh store_ex 4999 =
    Some (mk_res 6 (list_ascii_of_string "3
5
7
") (mk_iter trace_seq_init None 0 (-1) 0) [[]; []] 0) /\
  length (list_ascii_of_string "3
5
7
") <= 4999 /\ length (list_ascii_of_string "3
5
7
") <= PAGE_SIZE - 1 /\
  (6 <= Z.of_nat (PAGE_SIZE - 1))%Z /\
  seq_len (it_seq (mk_iter trace_seq_init None 0 (-1) 0)) < PAGE_SIZE.
Proof.
  assert (H0 : seq_len (it_seq iter_fresh) < PAGE_SIZE)
    by (apply Nat.ltb_lt; vm_compute; reflexivity).
  assert (H1 : trace_read_pipe 1 env_block classes_ex iter_fresh store_ex 4999 =
    Some (mk_res 6 (list_ascii_of_string "3
5
7
") (mk_iter trace_seq_init None 0 (-1) 0) [[]; []] 0))
    by (vm_compute; reflexivity).
  split; [exact H0 |]. split; [exact H1 |].
  exact (trace_read_pipe_page_bounded 1 env_block classes_ex iter_fresh store_ex 4999 _ H0 H1).
Defined.

Lemma consume_nth (st : store) (c : nat) (e : entry) (rest : list entry) :
  nth_error st c = Some (e :: rest) ->
  nth_error (ring_buffer_consume st c) c = Some rest.
Proof.
  revert c. induction st as [| b bs IH]; intros c H; [destruct c; discriminate |].
  destruct c as [| c]; simpl in *.
  - inversion H; subst. reflexivity.
  - exact (IH _ H).
Qed.

(** ** Claims on the merge and the format loop *)

(** C1: [__find_next_entry] returns no entry, CPU [-1], timestamp 0 and
    no lost events exactly when every CPU buffer is empty; otherwise it
    returns the oldest entry of a CPU whose oldest entry has the smallest
    timestamp, the lowest such CPU on a tie, with that CPU, timestamp and
    lost-event count. Taking and consuming the selected entry over and over
    therefore yields non-decreasing timestamps, as each CPU buffer holds its
    events in timestamp order. *)
Theorem find_next_entry_global_min (st : store) :
  let r := find_next_entry st in
  (fr_ent r = None <-> is_trace_empty st = true) /\
  match fr_ent r with
  | None => fr_cpu r = (-1)%Z /\ fr_ts r = 0%N /\ fr_lost r = 0%N
  | Some e =>
      exists c rest,
        nth_error st c = Some (e :: rest) /\ fr_cpu r = Z.of_nat c /\
        fr_ts r = e_ts e /\ fr_lost r = e_lost e /\
        forall c' e' rest', nth_error st c' = Some (e' :: rest') ->
          (e_ts e <= e_ts e')%N /\ ((c' < c)%nat -> (e_ts e < e_ts e')%N)
  end /\
  (cpu_sorted st -> forall k, StronglySorted ts_le (fst (drain k st))).
Proof.
  intros r. pose proof (find_next_entry_inv st) as Hinv. fold r in Hinv.
  unfold scan_inv in Hinv.
  split; [| split; [| intros Hs k; exact (drain_sorted k st Hs)]].
  - destruct (fr_ent r) as [e |].
    + destruct Hinv as (c & rest & Hc & _). split; [discriminate |].
      intros He. exfalso. exact (is_trace_empty_nth _ _ _ _ He Hc).
    + destruct Hinv as (He & _). split; auto.
  - destruct (fr_ent r) as [e |]; [exact Hinv |]. destruct Hinv as (_ & H). exact H.
Qed.

Lemma find_next_entry_global_min_witness :
  cpu_sorted store_ex /\ fst (drain 3 store_ex) = [mk_entry 2 3 0 []; mk_entry 1 5 0 []; mk_entry 1 7 0 []] /\
  StronglySorted ts_le (fst (drain 3 store_ex)).
Proof.
  assert (Hs : cpu_sorted store_ex).
  { unfold cpu_sorted, store_ex, ts_le.
    repeat constructor; simpl; lia. }
  split; [exact Hs |]. split; [vm_compute; reflexivity |].
  exact (proj2 (proj2 (find_next_entry_global_min store_ex)) Hs 3).
Defined.

Example find_next_entry_tie : fr_cpu (find_next_entry store_tie) = 0%Z.
Proof. reflexivity. Qed.

(** C2: in the format loop the output buffer only ever gains the complete
    lines of the entries consumed, in merge order, and the store loses
    exactly those entries. When the loop stops on a partial line, the
    buffer ends where that attempt started, the entry is not consumed and
    is still the one the merge selects next, and its line indeed does not
    fit. *)
Theorem format_loop_partial_line_safe (classes : list print_event_class)
  (fuel : nat) (it : iter) (st : store) (cnt : nat) :
  s_full (it_seq it) = false -> seq_len (it_seq it) < PAGE_SIZE ->
  let '(it', st') := fmt_loop fuel classes it st cnt in
  exists k,
    st' = snd (drain k st) /\
    s_buf (it_seq it') = s_buf (it_seq it) ++ concat (map (line_of classes) (fst (drain k st))) /\
    s_readpos (it_seq it') = s_readpos (it_seq it) /\
    (s_full (it_seq it') = true ->
       exists e, it_ent it' = Some e /\ fr_ent (find_next_entry st') = Some e /\
         PAGE_SIZE <= seq_len (it_seq it') + length (line_of classes e)).
Proof.
  intros Hfull Hlen. exact (fmt_loop_lines classes fuel it st cnt Hfull Hlen).
Qed.

Lemma format_loop_partial_line_safe_witness :
  s_full (it_seq iter_one_line) = false /\ seq_len (it_seq iter_one_line) < PAGE_SIZE /\
  fmt_loop 2 classes_long iter_one_line store_long 100 =
    (mk_iter (mk_seq (list_ascii_of_string "3
") 0 true) (Some (mk_entry 0 9 0 [])) 0 0 9, store_long) /\
  let '(it', st') := fmt_loop 2 classes_long iter_one_line store_long 100 in
  exists k,
    st' = snd (drain k store_long) /\
    s_buf (it_seq it') = s_buf (it_seq iter_one_line) ++
      concat (map (line_of classes_long) (fst (drain k store_long))) /\
    s_readpos (it_seq it') = s_readpos (it_seq iter_one_line) /\
    (s_full (it_seq it') = true ->
       exists e, it_ent it' = Some e /\ fr_ent (find_next_entry st') = Some e /\
         PAGE_SIZE <= seq_len (it_seq it') + length (line_of classes_long e)).
Proof.
  assert (H0 : s_full (it_seq iter_one_line) = false) by reflexivity.
  assert (H1 : seq_len (it_seq iter_one_line) < PAGE_SIZE)
    by (apply Nat.ltb_lt; vm_compute; reflexivity).
  split; [exact H0 |]. split; [exact H1 |]. split; [vm_compute; reflexivity |].
  exact (format_loop_partial_line_safe classes_long 2 iter_one_line store_long 100 H0 H1).
Defined.

(** C5: an entry whose id is not below the number of classes has no class;
    when it is the entry the merge selects and its fallback line
    "Unknown id <id>" fits, the loop appends that line and consumes the
    entry from its CPU. *)
Theorem unknown_id_fallback (classes : list print_event_class) (it : iter)
  (st : store) (cnt : nat) (e : entry) :
  length classes <= e_id e ->
  fr_ent (find_next_entry st) = Some e ->
  s_full (it_seq it) = false ->
  seq_len (it_seq it) + length (unknown_line e) < PAGE_SIZE ->
  find_print_event classes (e_id e) = None /\
  exists it' go c rest,
    fmt_step classes it st cnt = (it', ring_buffer_consume st c, go) /\
    s_buf (it_seq it') = s_buf (it_seq it) ++ unknown_line e /\
    nth_error st c = Some (e :: rest) /\
    nth_error (ring_buffer_consume st c) c = Some rest.
Proof.
  intros Hid He Hfull Hfit.
  assert (Hnone : find_print_event classes (e_id e) = None).
  { unfold find_print_event.
    replace (e_id e <? length classes) with false
      by (symmetry; apply Nat.ltb_ge; exact Hid).
    reflexivity. }
  split; [exact Hnone |].
  assert (Hline : line_of classes e = unknown_line e)
    by (unfold line_of; rewrite Hnone; reflexivity).
  assert (Hlen : seq_len (it_seq it) < PAGE_SIZE) by lia.
  pose proof (fmt_step_spec classes it st cnt Hfull Hlen) as Hstep.
  rewrite He in Hstep. simpl in Hstep. rewrite Hline in Hstep.
  replace (seq_len (it_seq it) + length (unknown_line e) <? PAGE_SIZE) with true
    in Hstep by (symmetry; apply Nat.ltb_lt; exact Hfit).
  destruct (find_some_at st e He) as (c & rest & Hc & Hcpu).
  rewrite Hcpu, Nat2Z.id in Hstep.
  eexists. eexists. exists c, rest.
  split; [exact Hstep |]. split; [reflexivity |].
  split; [exact Hc | exact (consume_nth _ _ _ _ Hc)].
Qed.

Lemma unknown_id_fallback_witness :
  length classes_ex <= 7 /\
  fr_ent (find_next_entry store_unknown) = Some (mk_entry 7 9 0 []) /\
  s_full (it_seq iter_fresh) = false /\
  seq_len (it_seq iter_fresh) + length (unknown_line (mk_entry 7 9 0 [])) < PAGE_SIZE /\
  unknown_line (mk_entry 7 9 0 []) = list_ascii_of_string "Unknown id 7
" /\
  find_print_event classes_ex 7 = None /\
  exists it' go c rest,
    fmt_step classes_ex iter_fresh store_unknown 10 =
      (it', ring_buffer_consume store_unknown c, go) /\
    s_buf (it_seq it') = s_buf (it_seq iter_fresh) ++ unknown_line (mk_entry 7 9 0 []) /\
    nth_error store_unknown c = Some (mk_entry 7 9 0 [] :: rest) /\
    nth_error (ring_buffer_consume store_unknown c) c = Some rest.
Proof.
  assert (H0 : length classes_ex <= e_id (mk_entry 7 9 0 [])) by (simpl; lia).
  assert (H1 : fr_ent (find_next_entry store_unknown) = Some (mk_entry 7 9 0 []))
    by reflexivity.
  assert (H2 : s_full (it_seq iter_fresh) = false) by reflexivity.
  assert (H3 : seq_len (it_seq iter_fresh) + length (unknown_line (mk_entry 7 9 0 [])) < PAGE_SIZE)
    by (apply Nat.ltb_lt; vm_compute; reflexivity).
  split; [exact H0 |]. split; [exact H1 |]. split; [exact H2 |]. split; [exact H3 |].
  split; [vm_compute; reflexivity |].
  exact (unknown_id_fallback classes_ex iter_fresh store_unknown 10 _ H0 H1 H2 H3).
Defined.

(** ** Startup *)

Lemma assign_ids_nth (cls : list print_event_class) (k i : nat) :
  nth_error (assign_ids k cls) i =
  option_map (fun c => mk_class (k + i) true (pc_line c)) (nth_error cls i).
Proof.
  revert k i. induction cls as [| c cs IH]; intros k i; [destruct i; reflexivity |].
  destruct i as [| i]; simpl.
  - now rewrite Nat.add_0_r.
  - rewrite IH. now rewrite Nat.add_succ_r.
Qed.

Lemma assign_ids_length (cls : list print_event_class) (k : nat) :
  length (assign_ids k cls) = length cls.
Proof.
  revert k. induction cls as [| c cs IH]; intros k; simpl; auto.
Qed.

(** A successful startup leaves the classes as they were when there are
    none, and numbered from 0 and bound to the store otherwise. *)
Lemma print_event_init_success_classes (id_bits : nat) (env : init_env)
  (s s' : module_state) :
  print_event_init id_bits env s = (0%Z, s') ->
  ms_classes s' = if num_print_event_class s =? 0 then ms_classes s
                  else assign_ids 0 (ms_classes s).
Proof.
  destruct s as [cls rs rp pd pp lg].
  unfold print_event_init, num_print_event_class. simpl.
  destruct (length cls =? 0); [intros H; inversion H; reflexivity |].
  destruct (PRINT_EVENT_ID_MAX id_bits <=? length cls);
    [intros H; inversion H |].
  destruct env as [[] [] [] []]; simpl; intros H; inversion H; reflexivity.
Qed.

(** C4 (as the code behaves): with an 8-bit [id] field, startup refuses 255
    classes with [-EINVAL] before any external call, although the ids
    0..254 they would get all fit the field; 254 classes are accepted. *)
Theorem print_event_init_rejects_255_classes (env : init_env)
  (c : print_event_class) :
  fst (print_event_init 8 env (module_unloaded (repeat c 255))) = (- EINVAL)%Z /\
  fst (print_event_init 8 init_all_ok (module_unloaded (repeat c 254))) = 0%Z.
Proof.
  unfold print_event_init, num_print_event_class, module_unloaded.
  cbn [ms_classes]. rewrite !repeat_length. split; reflexivity.
Qed.

(** C7 (as the code behaves): when [proc_mkdir] or [proc_create_data]
    fails after [ring_buffer_alloc] succeeded, startup returns [-ENOMEM]
    having released the buffer with [kfree] only: the structure is gone
    but the per-CPU pages stay allocated, as [ring_buffer_free] is never
    called. Nothing stays published under /proc and no class is
    registered. *)
Theorem print_event_init_rollback_leaks_pages (id_bits : nat) (env : init_env)
  (cls : list print_event_class) :
  cls <> [] -> length cls < PRINT_EVENT_ID_MAX id_bits ->
  lookup_ok env = true -> alloc_ok env = true ->
  mkdir_ok env = false \/ create_ok env = false ->
  let r := print_event_init id_bits env (module_unloaded cls) in
  fst r = (- ENOMEM)%Z /\ ms_rb_struct (snd r) = false /\
  ms_rb_pages (snd r) = true /\ ~ In ActFreeStore (ms_log (snd r)) /\
  ms_proc_dir (snd r) = false /\ ms_proc_pipe (snd r) = false /\
  ~ In ActRegisterClasses (ms_log (snd r)).
Proof.
  intros Hne Hlt Hl Ha Hfail. cbv zeta.
  destruct cls as [| c cs]; [contradiction |].
  unfold print_event_init, num_print_event_class, module_unloaded.
  cbn [ms_classes length Nat.eqb] in *.
  replace (PRINT_EVENT_ID_MAX id_bits <=? S (length cs)) with false
    by (symmetry; apply Nat.leb_gt; exact Hlt).
  destruct env as [lk al mk cr]; cbn in Hl, Ha, Hfail; subst lk al.
  destruct mk, cr; destruct Hfail as [Hf | Hf]; try discriminate; cbn;
    (split; [reflexivity |]); (split; [reflexivity |]); (split; [reflexivity |]);
    (split; [intros Hin; repeat (destruct Hin as [Hin | Hin]; [discriminate |]); exact Hin |]);
    (split; [reflexivity |]); (split; [reflexivity |]);
    intros Hin; repeat (destruct Hin as [Hin | Hin]; [discriminate |]); exact Hin.
Qed.

Lemma print_event_init_rollback_leaks_pages_witness :
  classes_ex <> [] /\ length classes_ex < PRINT_EVENT_ID_MAX 8 /\
  ms_rb_struct (snd (print_event_init 8 (mk_ienv true true false true)
                       (module_unloaded classes_ex))) = false /\
  ms_rb_pages (snd (print_event_init 8 (mk_ienv true true false true)
                      (module_unloaded classes_ex))) = true.
Proof.
  assert (Hne : classes_ex <> []) by discriminate.
  assert (Hlt : length classes_ex < PRINT_EVENT_ID_MAX 8)
    by (apply Nat.ltb_lt; reflexivity).
  split; [exact Hne |]. split; [exact Hlt |].
  destruct (print_event_init_rollback_leaks_pages 8 (mk_ienv true true false true)
              classes_ex Hne Hlt eq_refl eq_refl (or_introl eq_refl))
    as (_ & Hs & Hp & _).
  split; [exact Hs | exact Hp].
Defined.

(** Startup with no classes does nothing and succeeds. With classes, a
    successful startup allocates the store, creates the proc directory,
    then the pipe, and registers the classes last; a failed one returns a
    negative error with nothing published under /proc, no class
    registered, and the buffer structure released. *)
Theorem print_event_init_order_and_rollback (id_bits : nat) (env : init_env)
  (cls : list print_event_class) :
  let r := print_event_init id_bits env (module_unloaded cls) in
  (cls = [] -> r = (0%Z, module_unloaded cls)) /\
  (cls <> [] -> fst r = 0%Z ->
     ms_log (snd r) = [ActAllocStore; ActMkdir; ActCreatePipe; ActRegisterClasses] /\
     ms_rb_struct (snd r) = true /\ ms_proc_dir (snd r) = true /\
     ms_proc_pipe (snd r) = true) /\
  (fst r <> 0%Z ->
     (fst r < 0)%Z /\ ms_proc_dir (snd r) = false /\
     ms_proc_pipe (snd r) = false /\ ms_rb_struct (snd r) = false /\
     ms_classes (snd r) = cls /\ ~ In ActRegisterClasses (ms_log (snd r))).
Proof.
  cbv zeta. destruct cls as [| c cs].
  - split; [reflexivity |]. split; [intros H; now contradiction H |].
    cbn. intros H; now contradiction H.
  - unfold print_event_init, num_print_event_class, module_unloaded.
    cbn [ms_classes length Nat.eqb].
    split; [discriminate |].
    destruct (PRINT_EVENT_ID_MAX id_bits <=? S (length cs)).
    + cbn. split; [intros _ H; discriminate H |].
      intros _. unfold EINVAL. repeat split; try lia.
    + destruct env as [[] [] [] []]; cbn;
        (split; [intros _ H; try discriminate H; repeat split |]);
        intros H; try (contradiction H; reflexivity);
        unfold ENODEV, ENOMEM; repeat split; try lia;
        intros Hin; repeat (destruct Hin as [Hin | Hin]; [discriminate |]);
        exact Hin.
Qed.

Lemma print_event_init_order_and_rollback_witness :
  fst (print_event_init 8 (mk_ienv true true true false)
         (module_unloaded classes_ex)) = (- ENOMEM)%Z /\
  ~ In ActRegisterClasses
      (ms_log (snd (print_event_init 8 (mk_ienv true true true false)
                      (module_unloaded classes_ex)))).
Proof.
  split; [reflexivity |].
  destruct (print_event_init_order_and_rollback 8 (mk_ienv true true true false)
              classes_ex) as (_ & _ & H3).
  apply H3. discriminate.
Defined.

(** C9: after a successful startup the classes keep their order and count;
    the i-th class gets id i, is bound to the store, keeps its format
    callback, and is what [find_print_event] returns for i; any id at or
    past the number of classes resolves to no class. *)
Theorem registry_ids_roundtrip (id_bits : nat) (env : init_env)
  (s s' : module_state) :
  print_event_init id_bits env s = (0%Z, s') ->
  length (ms_classes s') = num_print_event_class s /\
  (forall i, i < num_print_event_class s ->
     exists c0 c, nth_error (ms_classes s) i = Some c0 /\
       nth_error (ms_classes s') i = Some c /\
       pc_id c = i /\ pc_bound c = true /\ pc_line c = pc_line c0 /\
       find_print_event (ms_classes s') i = Some c) /\
  (forall id, num_print_event_class s <= id ->
     find_print_event (ms_classes s') id = None).
Proof.
  intros H. apply print_event_init_success_classes in H.
  unfold num_print_event_class in *.
  destruct (length (ms_classes s) =? 0) eqn:E0.
  - apply Nat.eqb_eq in E0. rewrite H, E0.
    split; [reflexivity |]. split; [intros i Hi; lia |].
    intros id _. unfold find_print_event. rewrite E0. reflexivity.
  - rewrite H, assign_ids_length.
    split; [reflexivity |]. split.
    + intros i Hi.
      destruct (nth_error (ms_classes s) i) as [c0 |] eqn:Ec0;
        [| apply nth_error_None in Ec0; lia].
      exists c0, (mk_class i true (pc_line c0)).
      rewrite assign_ids_nth, Ec0. cbn.
      split; [reflexivity |]. split; [reflexivity |].
      split; [reflexivity |]. split; [reflexivity |]. split; [reflexivity |].
      unfold find_print_event. rewrite assign_ids_length.
      apply Nat.ltb_lt in Hi. rewrite Hi, assign_ids_nth, Ec0. reflexivity.
    + intros id Hid. unfold find_print_event. rewrite assign_ids_length.
      destruct (id <? length (ms_classes s)) eqn:Elt; [| reflexivity].
      apply Nat.ltb_lt in Elt. lia.
Qed.

(** Two classes not yet numbered: after startup the second one resolves
    under id 1, numbered 1 and bound, and id 2 resolves to nothing. *)
Lemma registry_ids_roundtrip_witness :
  let s0 := module_unloaded [mk_class 7 false ts_line; mk_class 7 false ts_line] in
  let s1 := snd (print_event_init 8 init_all_ok s0) in
  print_event_init 8 init_all_ok s0 = (0%Z, s1) /\
  find_print_event (ms_classes s1) 1 = Some (mk_class 1 true ts_line) /\
  find_print_event (ms_classes s1) 2 = None.
Proof.
  cbv zeta.
  destruct (registry_ids_roundtrip 8 init_all_ok
              (module_unloaded [mk_class 7 false ts_line; mk_class 7 false ts_line])
              (snd (print_event_init 8 init_all_ok
                 (module_unloaded [mk_class 7 false ts_line; mk_class 7 false ts_line]))))
    as (_ & Hin & Hout); [reflexivity |].
  split; [reflexivity |]. split.
  - destruct (Hin 1) as (c0 & c & Hc0 & Hc & Hid & Hb & Hl & Hf);
      [vm_compute; lia |].
    rewrite Hf. destruct c as [ci cb cl]. cbn in Hid, Hb, Hl.
    cbn in Hc0. injection Hc0 as <-. cbn in Hl. subst. reflexivity.
  - apply Hout. vm_compute. lia.
Defined.

(** ** Further properties of the read path, the merge and startup *)


Lemma trace_wait_pipe_outcome (fuel : nat) (env : read_env) (nw : nat)
  (st st' : store) (w : Z) (nw' : nat) :
  trace_wait_pipe fuel env nw st = Some (w, st', nw') ->
  nw <= nw' /\
  ((w = 1%Z /\ is_trace_empty st' = false) \/
   (w = (- EAGAIN)%Z /\ f_nonblock env = true /\ is_trace_empty st' = true) \/
   (w <> 0%Z /\ exists n s0, nw <= n < nw' /\ ring_buffer_waiting env n s0 = (w, st'))) /\
  (f_nonblock env = true -> st' = st /\ nw' = nw).
Proof.
  revert nw st. induction fuel as [| f IH]; intros nw st H; simpl in H;
    destruct (is_trace_empty st) eqn:He.
  - destruct (f_nonblock env) eqn:Hnb; [| discriminate].
    inversion H; subst. split; [lia |]. split; [right; left; auto | auto].
  - inversion H; subst. split; [lia |]. split; [left; auto | auto].
  - destruct (f_nonblock env) eqn:Hnb.
    + inversion H; subst. split; [lia |]. split; [right; left; auto | auto].
    + destruct (ring_buffer_waiting env nw st) as [ret st1] eqn:Hw.
      destruct (negb (ret =? 0)%Z) eqn:Hr.
      * inversion H; subst. apply negb_true_iff, Z.eqb_neq in Hr.
        split; [lia |]. split; [| discriminate].
        right; right. split; [exact Hr |]. exists nw, st. split; [lia | exact Hw].
      * destruct (IH (S nw) st1 H) as (Hle & Hcase & _).
        split; [lia |]. split; [| discriminate].
        destruct Hcase as [Hc | [Hc | (Hc & n & s0 & Hn & Hs0)]]; auto.
        right; right. split; [exact Hc |]. exists n, s0. split; [lia | exact Hs0].
  - inversion H; subst. split; [lia |]. split; [left; auto | auto].
Qed.

Lemma trace_wait_pipe_store (fuel : nat) (env : read_env) (nw : nat)
  (st st' : store) (w : Z) (nw' : nat) :
  (forall n s, snd (ring_buffer_waiting env n s) = s) ->
  trace_wait_pipe fuel env nw st = Some (w, st', nw') -> st' = st.
Proof.
  intros Hp. revert nw st. induction fuel as [| f IH]; intros nw st H; simpl in H;
    destruct (is_trace_empty st); try (inversion H; reflexivity).
  - destruct (f_nonblock env); inversion H; reflexivity.
  - destruct (f_nonblock env); [inversion H; reflexivity |].
    pose proof (Hp nw st) as Hs.
    destruct (ring_buffer_waiting env nw st) as [ret st1]. simpl in Hs. subst st1.
    destruct (negb (ret =? 0)%Z); [inversion H; reflexivity | exact (IH _ _ H)].
Qed.

Lemma trace_seq_to_user_spec (s : trace_seq) (cnt : nat) :
  let '(ret, out, s') := trace_seq_to_user s cnt in
  ((ret = (- EBUSY)%Z /\ out = [] /\ s' = s /\ 0 < cnt /\
      trace_seq_used s <= s_readpos s) \/
   ret = Z.of_nat (length out)) /\
  (0 < cnt -> ret <> 0%Z) /\
  s_buf s' = s_buf s /\
  unread s = out ++ unread s'.
Proof.
  unfold trace_seq_to_user.
  destruct (cnt =? 0) eqn:H0.
  { apply Nat.eqb_eq in H0. subst. split; [right; reflexivity |].
    split; [lia | auto]. }
  apply Nat.eqb_neq in H0.
  destruct (trace_seq_used s <=? s_readpos s) eqn:Hu.
  { apply Nat.leb_le in Hu. split; [left; repeat split; auto; lia |].
    split; [unfold EBUSY; lia | auto]. }
  apply Nat.leb_gt in Hu. unfold unread. cbn [s_buf s_readpos].
  set (n := Nat.min cnt (trace_seq_used s - s_readpos s)).
  assert (Hn : n <= length (skipn (s_readpos s) (s_buf s))).
  { rewrite length_skipn. unfold n, trace_seq_used, seq_len in *. lia. }
  split; [right; rewrite length_firstn; f_equal; lia |].
  split; [intros _; unfold n; lia |]. split; [reflexivity |].
  rewrite Nat.add_comm, <- skipn_skipn. symmetry. apply firstn_skipn.
Qed.

Lemma PAGE_SIZE_gt1 : 1 < PAGE_SIZE.
Proof. unfold PAGE_SIZE. lia. Qed.

Lemma clamp_pos (cnt : nat) :
  0 < cnt -> 0 < (if PAGE_SIZE <=? cnt then PAGE_SIZE - 1 else cnt).
Proof.
  intros H. pose proof PAGE_SIZE_gt1. destruct (PAGE_SIZE <=? cnt); lia.
Qed.

Lemma unread_drained (s : trace_seq) :
  seq_len s < PAGE_SIZE -> trace_seq_used s <= s_readpos s -> unread s = [].
Proof.
  intros Hl Hu. unfold unread. apply skipn_all2.
  unfold trace_seq_used, seq_len in *. lia.
Qed.

Lemma drain_none (k : nat) (st : store) :
  fr_ent (find_next_entry st) = None -> drain k st = ([], st).
Proof. intros He. destruct k; simpl; [reflexivity | now rewrite He]. Qed.

Lemma drain_add (k1 k2 : nat) (st : store) :
  drain (k1 + k2) st =
  (fst (drain k1 st) ++ fst (drain k2 (snd (drain k1 st))),
   snd (drain k2 (snd (drain k1 st)))).
Proof.
  revert st. induction k1 as [| k1 IH]; intros st.
  - simpl. destruct (drain k2 st); reflexivity.
  - cbn [Nat.add drain]. destruct (fr_ent (find_next_entry st)) as [e |] eqn:He.
    + rewrite IH. destruct (drain k1 _) as [l st1]. reflexivity.
    + simpl. rewrite (drain_none k2 st He). reflexivity.
Qed.

Local Opaque PAGE_SIZE.

Section ReadResults.

Variable classes : list print_event_class.

Lemma read_waitagain_result (fuel : nat) (env : read_env) (it : iter)
  (st : store) (cnt nw : nat) (sret : Z) (r : read_result) :
  (sret < 0)%Z ->
  read_waitagain fuel env classes it st cnt nw sret = Some r ->
  ((r_ret r < 0)%Z /\ r_out r = []) \/ r_ret r = Z.of_nat (length (r_out r)).
Proof.
  revert it st cnt nw sret. induction fuel as [| f IH];
    intros it st cnt nw sret Hs Hr; [discriminate |].
  cbn [read_waitagain] in Hr.
  destruct (fatal_signal_pending env).
  { inversion Hr; subst; cbn. auto. }
  destruct (trace_wait_pipe f env nw st) as [[[w st1] nw1] |] eqn:Hwp; [| discriminate].
  destruct (w <=? 0)%Z eqn:Hw.
  { inversion Hr; subst; cbn. apply Z.leb_le in Hw.
    destruct (trace_wait_pipe_outcome _ _ _ _ _ _ _ Hwp) as (_ & Hc & _).
    left. split; [| reflexivity].
    destruct Hc as [[-> _] | [[-> _] | [Hc _]]]; unfold EAGAIN in *; lia. }
  destruct (is_trace_empty st1).
  { inversion Hr; subst; cbn. right. reflexivity. }
  set (cnt1 := if PAGE_SIZE <=? cnt then PAGE_SIZE - 1 else cnt) in Hr.
  destruct (fmt_loop _ classes (iter_reset it) st1 cnt1) as [it2 st2].
  pose proof (trace_seq_to_user_spec (it_seq it2) cnt1) as Hu.
  destruct (trace_seq_to_user (it_seq it2) cnt1) as [[ret out] s3].
  destruct (ret =? - EBUSY)%Z eqn:Hb.
  - apply Z.eqb_eq in Hb. subst ret. eapply IH; [| exact Hr]. unfold EBUSY; lia.
  - inversion Hr; subst; cbn. apply Z.eqb_neq in Hb.
    destruct Hu as ([(Hret & _) | Hret] & _). { contradiction. } right. exact Hret.
Qed.

Lemma read_waitagain_no_loss (fuel : nat) (env : read_env) (it : iter)
  (st : store) (cnt nw : nat) (sret : Z) (r : read_result) :
  (forall n s, snd (ring_buffer_waiting env n s) = s) ->
  unread (it_seq it) = [] ->
  read_waitagain fuel env classes it st cnt nw sret = Some r ->
  exists k, r_store r = snd (drain k st) /\
    concat (map (line_of classes) (fst (drain k st))) =
    r_out r ++ unread (it_seq (r_iter r)).
Proof.
  intros Hp. revert it st cnt nw sret. induction fuel as [| f IH];
    intros it st cnt nw sret Hun Hr; [discriminate |].
  cbn [read_waitagain] in Hr.
  destruct (fatal_signal_pending env).
  { inversion Hr; subst; cbn. exists 0. simpl. rewrite Hun. auto. }
  destruct (trace_wait_pipe f env nw st) as [[[w st1] nw1] |] eqn:Hwp; [| discriminate].
  pose proof (trace_wait_pipe_store _ _ _ _ _ _ _ Hp Hwp) as ->.
  destruct (w <=? 0)%Z.
  { inversion Hr; subst; cbn. exists 0. simpl. rewrite Hun. auto. }
  destruct (is_trace_empty st).
  { inversion Hr; subst; cbn. exists 0. simpl. rewrite Hun. auto. }
  set (cnt1 := if PAGE_SIZE <=? cnt then PAGE_SIZE - 1 else cnt) in Hr.
  assert (Hz : seq_len (it_seq (iter_reset it)) < PAGE_SIZE)
    by (unfold seq_len; simpl; pose proof PAGE_SIZE_gt1; lia).
  pose proof (fmt_loop_lines classes (S (store_size st)) (iter_reset it) st cnt1
                eq_refl Hz) as Hlines.
  pose proof (fmt_loop_len classes (S (store_size st)) (iter_reset it) st cnt1
                eq_refl Hz) as Hlen.
  destruct (fmt_loop _ classes (iter_reset it) st cnt1) as [it2 st2].
  cbn [fst] in Hlen.
  destruct Hlines as (k1 & Hst2 & Hbuf2 & Hrp2 & _).
  cbn [iter_reset it_seq trace_seq_init s_buf s_readpos app] in Hbuf2, Hrp2.
  assert (Hun2 : unread (it_seq it2) = concat (map (line_of classes) (fst (drain k1 st))))
    by (unfold unread; rewrite Hrp2, Hbuf2; reflexivity).
  pose proof (trace_seq_to_user_spec (it_seq it2) cnt1) as Hu.
  destruct (trace_seq_to_user (it_seq it2) cnt1) as [[ret out] s3].
  destruct Hu as (Hcase & _ & Hbuf3 & Hsplit).
  set (s4 := if trace_seq_used s3 <=? s_readpos s3 then trace_seq_init else s3) in Hr.
  assert (Hun4 : unread s4 = unread s3).
  { subst s4. destruct (trace_seq_used s3 <=? s_readpos s3) eqn:Hu3; [| reflexivity].
    apply Nat.leb_le in Hu3. symmetry. apply unread_drained; [| exact Hu3].
    unfold seq_len in *. rewrite Hbuf3. exact Hlen. }
  destruct (ret =? - EBUSY)%Z eqn:Hb.
  - apply Z.eqb_eq in Hb. subst ret.
    destruct Hcase as [(_ & -> & -> & _ & Hu2) | Hcase];
      [| exfalso; unfold EBUSY in Hcase; lia].
    assert (Hnil : concat (map (line_of classes) (fst (drain k1 st))) = []).
    { rewrite <- Hun2. exact (unread_drained _ Hlen Hu2). }
    assert (Hun4' : unread (it_seq (set_seq it2 s4)) = []).
    { cbn. rewrite Hun4. rewrite <- Hun2 in Hnil. exact Hnil. }
    destruct (IH _ _ _ _ _ Hun4' Hr) as (k2 & Hst & Hout).
    exists (k1 + k2). rewrite drain_add. cbn [fst snd].
    rewrite <- Hst2. split; [exact Hst |].
    rewrite map_app, concat_app, Hnil. exact Hout.
  - injection Hr as <-. cbn. exists k1. split; [exact Hst2 |].
    rewrite <- Hun2, Hsplit, Hun4. reflexivity.
Qed.

End ReadResults.

Lemma consume_perm (st : store) (c : nat) (e : entry) (rest : list entry) :
  nth_error st c = Some (e :: rest) ->
  Permutation (concat st) (e :: concat (ring_buffer_consume st c)).
Proof.
  revert c. induction st as [| b bs IH]; intros c H; [destruct c; discriminate |].
  destruct c as [| c]; cbn in *.
  - inversion H; subst. reflexivity.
  - specialize (IH c H). rewrite IH. symmetry. apply Permutation_middle.
Qed.

Lemma empty_concat (st : store) : is_trace_empty st = true -> concat st = [].
Proof.
  induction st as [| b bs IH]; [reflexivity |].
  cbn. intros H. apply andb_true_iff in H as [Hb Hbs].
  destruct b; [exact (IH Hbs) | discriminate].
Qed.

Lemma size_zero_empty (st : store) : store_size st = 0 -> is_trace_empty st = true.
Proof.
  unfold store_size. induction st as [| b bs IH]; [reflexivity |].
  cbn. rewrite length_app. intros H. destruct b; [exact (IH H) | cbn in H; lia].
Qed.

Lemma find_none_empty (st : store) :
  fr_ent (find_next_entry st) = None -> is_trace_empty st = true.
Proof.
  intros H. pose proof (find_next_entry_inv st) as Hinv.
  unfold scan_inv in Hinv. rewrite H in Hinv. tauto.
Qed.

Lemma find_some_nonempty (st : store) (e : entry) :
  fr_ent (find_next_entry st) = Some e -> is_trace_empty st = false.
Proof.
  intros H. destruct (find_some_at st e H) as (c & rest & Hc & _).
  destruct (is_trace_empty st) eqn:He; [| reflexivity].
  exfalso. exact (is_trace_empty_nth st c e rest He Hc).
Qed.

Lemma drain_exhaustive_gen (k : nat) (st : store) :
  store_size st <= k ->
  is_trace_empty (snd (drain k st)) = true /\ Permutation (fst (drain k st)) (concat st).
Proof.
  revert st. induction k as [| k IH]; intros st Hk.
  - cbn. split; [apply size_zero_empty; lia |].
    unfold store_size in Hk. destruct (concat st); [constructor | cbn in Hk; lia].
  - cbn. destruct (fr_ent (find_next_entry st)) as [e |] eqn:He.
    + destruct (find_some_at st e He) as (c & rest & Hc & Hcpu).
      rewrite Hcpu, Nat2Z.id.
      pose proof (consume_perm st c e rest Hc) as Hp.
      assert (Hs : store_size (ring_buffer_consume st c) <= k).
      { unfold store_size in *. apply Permutation_length in Hp. cbn in Hp. lia. }
      destruct (IH _ Hs) as [He' Hp'].
      destruct (drain k (ring_buffer_consume st c)) as [l st']. cbn in *.
      split; [exact He' |]. rewrite Hp. now apply perm_skip.
    + cbn. pose proof (find_none_empty st He) as Hem.
      split; [exact Hem |]. rewrite (empty_concat st Hem). constructor.
Qed.

Section FormatStop.

Variable classes : list print_event_class.

Lemma fmt_loop_stop_gen (fuel : nat) (it : iter) (st : store) (cnt : nat) :
  s_full (it_seq it) = false -> seq_len (it_seq it) < PAGE_SIZE ->
  store_size st < fuel ->
  let '(it', st') := fmt_loop fuel classes it st cnt in
  is_trace_empty st' = true \/ s_full (it_seq it') = true \/
  cnt <= trace_seq_used (it_seq it').
Proof.
  revert it st. induction fuel as [| f IH]; intros it st Hfull Hlen Hf; [lia |].
  cbn [fmt_loop]. pose proof (fmt_step_spec classes it st cnt Hfull Hlen) as Hstep.
  destruct (fr_ent (find_next_entry st)) as [e |] eqn:He.
  - cbv zeta in Hstep.
    destruct (seq_len (it_seq it) + length (line_of classes e) <? PAGE_SIZE) eqn:Hfit;
      rewrite Hstep.
    + apply Nat.ltb_lt in Hfit.
      destruct (cnt <=? trace_seq_used _) eqn:Hc; cbn [negb].
      * right; right. apply Nat.leb_le in Hc. exact Hc.
      * destruct (find_some_at st e He) as (c & rest & Hc' & Hcpu).
        rewrite Hcpu, Nat2Z.id.
        pose proof (consume_perm st c e rest Hc') as Hp.
        apply IH; [reflexivity | unfold seq_len in *; cbn; rewrite length_app; lia |].
        unfold store_size in *. apply Permutation_length in Hp. cbn in Hp. lia.
    + right; left. reflexivity.
  - rewrite Hstep. left. exact (find_none_empty st He).
Qed.

Lemma read_waitagain_spin (fuel : nat) (env : read_env) (it : iter)
  (st : store) (cnt nw : nat) (sret : Z) (e : entry) :
  fatal_signal_pending env = false -> 0 < cnt ->
  fr_ent (find_next_entry st) = Some e ->
  PAGE_SIZE <= length (line_of classes e) ->
  read_waitagain fuel env classes it st cnt nw sret = None.
Proof.
  intros Hf Hc He Hlong. revert it cnt nw sret Hc.
  induction fuel as [| f IH]; intros it cnt nw sret Hc; [reflexivity |].
  cbn [read_waitagain]. rewrite Hf.
  pose proof (find_some_nonempty st e He) as Hne.
  replace (trace_wait_pipe f env nw st) with (Some (1%Z, st, nw))
    by (destruct f; cbn; rewrite Hne; reflexivity).
  cbn [Z.leb Z.compare]. rewrite Hne.
  set (cnt1 := if PAGE_SIZE <=? cnt then PAGE_SIZE - 1 else cnt).
  assert (Hc1 : 0 < cnt1) by exact (clamp_pos cnt Hc).
  assert (Hz : seq_len (it_seq (iter_reset it)) < PAGE_SIZE)
    by (unfold seq_len; cbn; pose proof PAGE_SIZE_gt1; lia).
  pose proof (fmt_step_spec classes (iter_reset it) st cnt1 eq_refl Hz) as Hstep.
  rewrite He in Hstep. cbv zeta in Hstep.
  replace (seq_len (it_seq (iter_reset it)) + length (line_of classes e) <? PAGE_SIZE)
    with false in Hstep by (symmetry; apply Nat.ltb_ge; exact Hlong).
  cbn [fmt_loop]. rewrite Hstep.
  rewrite trace_seq_to_user_drained;
    [| unfold trace_seq_used, seq_len; cbn; lia | exact Hc1].
  cbn [Z.eqb]. rewrite Z.eqb_refl. apply IH. exact Hc1.
Qed.

Lemma read_waitagain_clamp (fuel : nat) (env : read_env) (it : iter)
  (st : store) (cnt nw : nat) (sret : Z) :
  PAGE_SIZE - 1 <= cnt ->
  read_waitagain fuel env classes it st cnt nw sret =
  read_waitagain fuel env classes it st (PAGE_SIZE - 1) nw sret.
Proof.
  intros Hc. destruct fuel as [| f]; [reflexivity |]. cbn [read_waitagain].
  assert (H1 : (if PAGE_SIZE <=? cnt then PAGE_SIZE - 1 else cnt) = PAGE_SIZE - 1).
  { destruct (PAGE_SIZE <=? cnt) eqn:Hp; [reflexivity |].
    apply Nat.leb_gt in Hp. lia. }
  assert (H2 : (if PAGE_SIZE <=? PAGE_SIZE - 1 then PAGE_SIZE - 1 else PAGE_SIZE - 1)
               = PAGE_SIZE - 1) by (destruct (_ <=? _); reflexivity).
  rewrite H1, H2. reflexivity.
Qed.

End FormatStop.


(** [trace_wait_pipe] returns 1 only when it leaves the store non-empty.
    Otherwise it returns [-EAGAIN] for a non-blocking file on an empty
    store, without calling the wait primitive or touching the store, or it
    passes on the non-zero value one of its calls of [ring_buffer_wait]
    returned. It never returns 0. *)
Theorem trace_wait_pipe_result (fuel : nat) (env : read_env) (nw : nat)
  (st st' : store) (w : Z) (nw' : nat) :
  trace_wait_pipe fuel env nw st = Some (w, st', nw') ->
  (w = 1%Z /\ is_trace_empty st' = false) \/
  (w = (- EAGAIN)%Z /\ f_nonblock env = true /\ st' = st /\ nw' = nw /\
   is_trace_empty st = true) \/
  (f_nonblock env = false /\ w <> 0%Z /\
   exists n s0, nw <= n < nw' /\ ring_buffer_waiting env n s0 = (w, st')).
Proof.
  intros H. destruct (trace_wait_pipe_outcome _ _ _ _ _ _ _ H) as (_ & Hc & Hnb).
  destruct Hc as [Hc | [(Hw & Hb & He) | (Hw & Hex)]]; [now left | |].
  - right; left. destruct (Hnb Hb) as [-> ->]. auto.
  - destruct (f_nonblock env) eqn:Hb.
    + destruct (Hnb eq_refl) as [-> ->]. destruct Hex as (n & _ & Hn & _). lia.
    + right; right. auto.
Qed.

Lemma trace_wait_pipe_result_witness :
  trace_wait_pipe 2 env_nonblock 0 [[]; []] = Some ((- EAGAIN)%Z, [[]; []], 0) /\
  ((- EAGAIN)%Z = (- EAGAIN)%Z /\ f_nonblock env_nonblock = true /\
   [[]; []] = ([[]; []] : store) /\ 0 = 0 /\ is_trace_empty [[]; []] = true).
Proof.
  split; [reflexivity |].
  destruct (trace_wait_pipe_result 2 env_nonblock 0 [[]; []] [[]; []]
              (- EAGAIN)%Z 0 eq_refl) as [[Hw _] | [H | (Hb & _)]].
  - exfalso. unfold EAGAIN in Hw. lia.
  - exact H.
  - discriminate.
Defined.

(** A read call that returns gives either a negative error code with
    nothing copied, or exactly the number of bytes it copied. *)
Theorem trace_read_pipe_result (fuel : nat) (env : read_env)
  (classes : list print_event_class) (it : iter) (st : store) (cnt : nat)
  (r : read_result) :
  trace_read_pipe fuel env classes it st cnt = Some r ->
  ((r_ret r < 0)%Z /\ r_out r = []) \/ r_ret r = Z.of_nat (length (r_out r)).
Proof.
  intros Hr. unfold trace_read_pipe in Hr.
  pose proof (trace_seq_to_user_spec (it_seq it) cnt) as Hu.
  destruct (trace_seq_to_user (it_seq it) cnt) as [[ret out] s1].
  destruct Hu as (Hcase & _).
  destruct (negb (ret =? - EBUSY)%Z) eqn:Hb.
  - injection Hr as <-. cbn. apply negb_true_iff, Z.eqb_neq in Hb.
    destruct Hcase as [(Hret & _) | Hret]; [contradiction | now right].
  - apply negb_false_iff, Z.eqb_eq in Hb. subst ret.
    eapply read_waitagain_result; [| exact Hr]. unfold EBUSY; lia.
Qed.

Lemma trace_read_pipe_result_witness :
  trace_read_pipe 1 env_block classes_ex iter_fresh store_ex 4999 =
    Some (mk_res 6 (list_ascii_of_string "3
5
7
") (mk_iter trace_seq_init None 0 (-1) 0) [[]; []] 0) /\
  (6 = Z.of_nat (length (list_ascii_of_string "3
5
7
")))%Z.
Proof.
  assert (H : trace_read_pipe 1 env_block classes_ex iter_fresh store_ex 4999 =
    Some (mk_res 6 (list_ascii_of_string "3
5
7
") (mk_iter trace_seq_init None 0 (-1) 0) [[]; []] 0)) by (vm_compute; reflexivity).
  split; [exact H |].
  destruct (trace_read_pipe_result _ _ _ _ _ _ _ H) as [[Hneg _] | Hlen].
  - cbn in Hneg. lia.
  - exact Hlen.
Defined.

(** With no producer writing during the call, a read removes from the
    store the entries of a merge-order drain. The text the session held
    unread before, followed by the lines of those entries, equals the bytes
    copied followed by the text the session still holds unread: no
    consumed entry's line is lost or duplicated. *)
Theorem trace_read_pipe_no_loss (fuel : nat) (env : read_env)
  (classes : list print_event_class) (it : iter) (st : store) (cnt : nat)
  (r : read_result) :
  (forall n s, snd (ring_buffer_waiting env n s) = s) ->
  seq_len (it_seq it) < PAGE_SIZE ->
  trace_read_pipe fuel env classes it st cnt = Some r ->
  exists k, r_store r = snd (drain k st) /\
    unread (it_seq it) ++ concat (map (line_of classes) (fst (drain k st))) =
    r_out r ++ unread (it_seq (r_iter r)).
Proof.
  intros Hp Hlen Hr. unfold trace_read_pipe in Hr.
  pose proof (trace_seq_to_user_spec (it_seq it) cnt) as Hu.
  destruct (trace_seq_to_user (it_seq it) cnt) as [[ret out] s1].
  destruct Hu as (Hcase & _ & _ & Hsplit).
  destruct (negb (ret =? - EBUSY)%Z) eqn:Hb.
  - injection Hr as <-. cbn. exists 0. cbn. rewrite app_nil_r. auto.
  - apply negb_false_iff, Z.eqb_eq in Hb. subst ret.
    destruct Hcase as [(_ & _ & _ & _ & Hu) | Hcase];
      [| exfalso; unfold EBUSY in Hcase; lia].
    rewrite (unread_drained _ Hlen Hu). cbn [app].
    exact (read_waitagain_no_loss classes fuel env (set_seq it trace_seq_init) st cnt 0 _ r Hp eq_refl Hr).
Qed.

Lemma trace_read_pipe_no_loss_witness :
  (forall n s, snd (ring_buffer_waiting env_block n s) = s) /\
  seq_len (it_seq iter_fresh) < PAGE_SIZE /\
  trace_read_pipe 1 env_block classes_ex iter_fresh store_ex 3 =
    Some (mk_res 3 (list_ascii_of_string "3
5")
      (mk_iter (mk_seq (list_ascii_of_string "3
5
") 3 false) (Some (mk_entry 1 5 0 [])) 0 0 5) [[mk_entry 1 7 0 []]; []] 0) /\
  exists k, [[mk_entry 1 7 0 []]; []] = snd (drain k store_ex) /\
    unread (it_seq iter_fresh) ++ concat (map (line_of classes_ex) (fst (drain k store_ex))) =
    list_ascii_of_string "3
5" ++ unread (mk_seq (list_ascii_of_string "3
5
") 3 false).
Proof.
  assert (Hp : forall n s, snd (ring_buffer_waiting env_block n s) = s)
    by reflexivity.
  assert (Hl : seq_len (it_seq iter_fresh) < PAGE_SIZE)
    by (apply Nat.ltb_lt; vm_compute; reflexivity).
  assert (H : trace_read_pipe 1 env_block classes_ex iter_fresh store_ex 3 =
    Some (mk_res 3 (list_ascii_of_string "3
5")
      (mk_iter (mk_seq (list_ascii_of_string "3
5
") 3 false) (Some (mk_entry 1 5 0 [])) 0 0 5) [[mk_entry 1 7 0 []]; []] 0))
    by (vm_compute; reflexivity).
  split; [exact Hp |]. split; [exact Hl |]. split; [exact H |].
  exact (trace_read_pipe_no_loss _ _ _ _ _ _ _ Hp Hl H).
Defined.

(** Taking the merged minimum and consuming it, once per entry in the
    store, empties every CPU buffer and yields each entry exactly once. *)
Theorem drain_exhaustive (st : store) :
  is_trace_empty (snd (drain (store_size st) st)) = true /\
  Permutation (fst (drain (store_size st) st)) (concat st).
Proof. apply drain_exhaustive_gen. lia. Qed.

(** Run with one pass more than the store holds entries, the format loop
    stops only when the store is empty, when the next line did not fit, or
    when at least the requested number of bytes is formatted. *)
Theorem fmt_loop_stop (classes : list print_event_class) (it : iter)
  (st : store) (cnt : nat) :
  s_full (it_seq it) = false -> seq_len (it_seq it) < PAGE_SIZE ->
  let '(it', st') := fmt_loop (S (store_size st)) classes it st cnt in
  is_trace_empty st' = true \/ s_full (it_seq it') = true \/
  cnt <= trace_seq_used (it_seq it').
Proof.
  intros Hf Hl. apply fmt_loop_stop_gen; [exact Hf | exact Hl | lia].
Qed.

Lemma fmt_loop_stop_witness :
  s_full (it_seq iter_fresh) = false /\ seq_len (it_seq iter_fresh) < PAGE_SIZE /\
  fmt_loop (S (store_size store_ex)) classes_ex iter_fresh store_ex 3 =
    (mk_iter (mk_seq (list_ascii_of_string "3
5
") 0 false) (Some (mk_entry 1 5 0 [])) 0 0 5, [[mk_entry 1 7 0 []]; []]) /\
  (is_trace_empty [[mk_entry 1 7 0 []]; []] = true \/ false = true \/
   3 <= trace_seq_used (mk_seq (list_ascii_of_string "3
5
") 0 false)).
Proof.
  assert (Hf : s_full (it_seq iter_fresh) = false) by reflexivity.
  assert (Hl : seq_len (it_seq iter_fresh) < PAGE_SIZE)
    by (apply Nat.ltb_lt; vm_compute; reflexivity).
  assert (H : fmt_loop (S (store_size store_ex)) classes_ex iter_fresh store_ex 3 =
    (mk_iter (mk_seq (list_ascii_of_string "3
5
") 0 false) (Some (mk_entry 1 5 0 [])) 0 0 5, [[mk_entry 1 7 0 []]; []]))
    by (vm_compute; reflexivity).
  split; [exact Hf |]. split; [exact Hl |]. split; [exact H |].
  pose proof (fmt_loop_stop classes_ex iter_fresh store_ex 3 Hf Hl) as Hs.
  rewrite H in Hs. exact Hs.
Defined.

(** Teardown after a successful startup removes the proc entries and
    frees the whole store (structure and pages); the classes stay as
    startup numbered them. *)
Theorem print_event_init_exit (id_bits : nat) (env : init_env)
  (cls : list print_event_class) (s1 : module_state) :
  print_event_init id_bits env (module_unloaded cls) = (0%Z, s1) ->
  let s2 := print_event_exit s1 in
  ms_proc_dir s2 = false /\ ms_proc_pipe s2 = false /\
  ms_rb_struct s2 = false /\ ms_rb_pages s2 = false /\
  ms_classes s2 = ms_classes s1.
Proof.
  destruct cls as [| c cs].
  - cbn. intros H. injection H as <-. cbn. auto.
  - unfold print_event_init, num_print_event_class, module_unloaded.
    cbn [ms_classes length Nat.eqb].
    destruct (PRINT_EVENT_ID_MAX id_bits <=? S (length cs)); [discriminate |].
    destruct env as [[] [] [] []]; cbn; intros H; try discriminate.
    injection H as <-. cbn. auto.
Qed.

Lemma print_event_init_exit_witness :
  print_event_init 8 init_all_ok (module_unloaded classes_ex) =
    (0%Z, snd (print_event_init 8 init_all_ok (module_unloaded classes_ex))) /\
  ms_rb_pages (print_event_exit
    (snd (print_event_init 8 init_all_ok (module_unloaded classes_ex)))) = false.
Proof.
  assert (H : print_event_init 8 init_all_ok (module_unloaded classes_ex) =
    (0%Z, snd (print_event_init 8 init_all_ok (module_unloaded classes_ex))))
    by reflexivity.
  split; [exact H |].
  destruct (print_event_init_exit _ _ _ _ H) as (_ & _ & _ & Hp & _). exact Hp.
Defined.

(** A read of length 0 returns 0 at once and changes nothing: no wait,
    no signal check, store and session as they were. *)
Theorem trace_read_pipe_zero_count (fuel : nat) (env : read_env)
  (classes : list print_event_class) (it : iter) (st : store) :
  trace_read_pipe fuel env classes it st 0 = Some (mk_res 0 [] it st 0).
Proof.
  unfold trace_read_pipe, trace_seq_to_user. cbn.
  destruct it as [s e l c t]. reflexivity.
Qed.

(** A read of [PAGE_SIZE] bytes or more behaves exactly as a read of
    [PAGE_SIZE - 1] bytes. *)
Theorem trace_read_pipe_clamp (fuel : nat) (env : read_env)
  (classes : list print_event_class) (it : iter) (st : store) (cnt : nat) :
  seq_len (it_seq it) < PAGE_SIZE -> PAGE_SIZE <= cnt ->
  trace_read_pipe fuel env classes it st cnt =
  trace_read_pipe fuel env classes it st (PAGE_SIZE - 1).
Proof.
  intros Hl Hc. pose proof PAGE_SIZE_gt1 as Hp.
  assert (Hto : trace_seq_to_user (it_seq it) cnt =
                trace_seq_to_user (it_seq it) (PAGE_SIZE - 1)).
  { unfold trace_seq_to_user.
    replace (cnt =? 0) with false by (symmetry; apply Nat.eqb_neq; lia).
    replace (PAGE_SIZE - 1 =? 0) with false by (symmetry; apply Nat.eqb_neq; lia).
    unfold trace_seq_used, seq_len in *.
    rewrite (Nat.min_r cnt) by lia. rewrite (Nat.min_r (PAGE_SIZE - 1)) by lia.
    reflexivity. }
  unfold trace_read_pipe. rewrite Hto.
  destruct (trace_seq_to_user (it_seq it) (PAGE_SIZE - 1)) as [[ret out] s1].
  destruct (negb (ret =? - EBUSY)%Z); [reflexivity |].
  apply read_waitagain_clamp. lia.
Qed.

Lemma trace_read_pipe_clamp_witness :
  seq_len (it_seq iter_fresh) < PAGE_SIZE /\ PAGE_SIZE <= 4999 /\
  trace_read_pipe 1 env_block classes_ex iter_fresh store_ex 4999 =
  trace_read_pipe 1 env_block classes_ex iter_fresh store_ex (PAGE_SIZE - 1).
Proof.
  assert (Hl : seq_len (it_seq iter_fresh) < PAGE_SIZE)
    by (apply Nat.ltb_lt; vm_compute; reflexivity).
  assert (Hc : PAGE_SIZE <= 4999) by (apply Nat.leb_le; vm_compute; reflexivity).
  split; [exact Hl |]. split; [exact Hc |].
  exact (trace_read_pipe_clamp 1 env_block classes_ex iter_fresh store_ex 4999 Hl Hc).
Defined.

(** When the merge's next entry formats to a line of [PAGE_SIZE] bytes or
    more and the session holds no unread text, a read with no fatal signal
    pending never returns: every pass stops on the partial line, copies
    nothing, and goes back to [waitagain], which finds the store non-empty
    and does not wait. *)
Theorem trace_read_pipe_spins (fuel : nat) (env : read_env)
  (classes : list print_event_class) (it : iter) (st : store) (cnt : nat)
  (e : entry) :
  fatal_signal_pending env = false -> 0 < cnt ->
  trace_seq_used (it_seq it) <= s_readpos (it_seq it) ->
  fr_ent (find_next_entry st) = Some e ->
  PAGE_SIZE <= length (line_of classes e) ->
  trace_read_pipe fuel env classes it st cnt = None.
Proof.
  intros Hf Hc Hu He Hlong.
  rewrite trace_read_pipe_drained by assumption.
  exact (read_waitagain_spin classes _ _ _ _ _ _ _ e Hf Hc He Hlong).
Qed.

Lemma trace_read_pipe_spins_witness :
  fatal_signal_pending env_block = false /\ 0 < 10 /\
  trace_seq_used (it_seq iter_fresh) <= s_readpos (it_seq iter_fresh) /\
  fr_ent (find_next_entry store_long) = Some (mk_entry 0 9 0 []) /\
  PAGE_SIZE <= length (line_of classes_page (mk_entry 0 9 0 [])) /\
  trace_read_pipe 50 env_block classes_page iter_fresh store_long 10 = None.
Proof.
  assert (H1 : fatal_signal_pending env_block = false) by reflexivity.
  assert (H2 : 0 < 10) by lia.
  assert (H3 : trace_seq_used (it_seq iter_fresh) <= s_readpos (it_seq iter_fresh))
    by (apply Nat.leb_le; vm_compute; reflexivity).
  assert (H4 : fr_ent (find_next_entry store_long) = Some (mk_entry 0 9 0 []))
    by reflexivity.
  assert (H5 : PAGE_SIZE <= length (line_of classes_page (mk_entry 0 9 0 [])))
    by (apply Nat.leb_le; vm_compute; reflexivity).
  split; [exact H1 |]. split; [exact H2 |]. split; [exact H3 |].
  split; [exact H4 |]. split; [exact H5 |].
  exact (trace_read_pipe_spins 50 env_block classes_page iter_fresh store_long 10
           _ H1 H2 H3 H4 H5).
Defined.
